(** * nsq-consumer: the option-setting and start-up layer over the NSQ client

    A shallow embedding of [consumer.go] (package [consumer]) and the
    properties of its configuration model:

    - [Value] is the dynamically typed option value ([interface{}]);
    - [split] and [FieldsFunc] are the address-list parser;
    - [Consumer] is the builder struct, [Set_] (the method [Set]),
      [SetMap] and [SetLogger] its mutators, written as state
      transformers on the struct;
    - [Start] and [connect] run in a small state monad over the state of
      the NSQ library, which is reached only through the interface
      [NsqLib]; every call into the library is recorded in a call log.

    [Stop], which waits on a channel of the client, is not modelled. *)

From Stdlib Require Import Ascii ZArith Lia.
From stdpp Require Import base strings list gmap.

Local Open Scope Z_scope.

(** ** Option values and errors *)

(** The dynamic type of an option value. The code tests for [string],
    [int] and [[]string]; every other dynamic type (including the nil
    interface) takes the failing branch of each test, and is represented
    by [VOther] carrying the name of that type. An [int] is stored and
    passed on, never computed with, so it is kept as an integer of [Z]. *)
Inductive Value : Type :=
  | VString (s : string)
  | VInt (n : Z)
  | VStrings (l : list string)
  | VOther (ty : string).

(** A Go [error] is observed through its message. *)
Definition error : Type := string.

(** The double quote character, as [%q] prints it around a key. *)
Definition dquote : string := String (ascii_of_nat 34) EmptyString.

(** [fmt.Sprintf("%q", option)] for the keys of the [switch] in [Set]:
    they are plain lower-case words, which [%q] prints between double
    quotes with nothing escaped. *)
Definition quoted (option : string) : string := dquote +:+ option +:+ dquote.

(** ** Address-list parsing *)

(** The separator test passed to [strings.FieldsFunc] by [split]. *)
Definition isSep (r : ascii) : bool :=
  if Ascii.eqb r ","%char then true
  else if Ascii.eqb r " "%char then true
  else false.

(** The scanning loop of [strings.FieldsFunc]. [start] is [None] outside
    a field ([start < 0] in the library) and [Some t] inside one, [t]
    being the text of the field read so far ([s[start:end]]).

    Strings are sequences of bytes. The library decodes UTF-8 and tests
    code points; as both separators are below 128, and every byte of a
    longer encoding (and every ill-formed byte) is not, the code points
    that satisfy [isSep] are exactly the bytes that do. *)
Fixpoint fieldsLoop (f : ascii → bool) (start : option string) (s : string)
    : list string :=
  match s with
  | EmptyString =>
      match start with
      | Some t => [t]
      | None => []
      end
  | String r s' =>
      if f r then
        match start with
        | Some t => t :: fieldsLoop f None s'
        | None => fieldsLoop f None s'
        end
      else
        match start with
        | Some t => fieldsLoop f (Some (t +:+ String r EmptyString)) s'
        | None => fieldsLoop f (Some (String r EmptyString)) s'
        end
  end.

Definition FieldsFunc (s : string) (f : ascii → bool) : list string :=
  fieldsLoop f None s.

(** [split]: a slice of strings is returned as it is, a string is cut
    into fields, anything else is an error. *)
Definition split (value : Value) : list string * option error :=
  match value with
  | VStrings l => (l, None)
  | VString s => (FieldsFunc s isSep, None)
  | _ => ([], Some "expected string or slice of strings")
  end.

(** *** The parsing rule in the words of the specification *)

Definition nonEmpty (s : string) : bool :=
  match s with
  | EmptyString => false
  | String _ _ => true
  end.

(** A string made of separators only. *)
Fixpoint onlySeps (s : string) : bool :=
  match s with
  | EmptyString => true
  | String r s' => isSep r && onlySeps s'
  end.

(** A string with no separator in it. *)
Fixpoint sepFree (s : string) : bool :=
  match s with
  | EmptyString => true
  | String r s' => negb (isSep r) && sepFree s'
  end.

(** The pieces of [s] between consecutive separators; a piece is empty
    where two separators touch, and at a leading or trailing separator. *)
Fixpoint pieces (s : string) : list string :=
  match s with
  | EmptyString => [EmptyString]
  | String r s' =>
      if isSep r then EmptyString :: pieces s'
      else
        match pieces s' with
        | p :: ps => String r p :: ps
        | [] => [String r EmptyString]
        end
  end.

(** The maximal separator-free runs of [s], the empty ones discarded. *)
Definition spec_fields (s : string) : list string :=
  filter (λ p, nonEmpty p = true) (pieces s).



(** The separators of [s], in order. *)
Fixpoint sepsOf (s : string) : list ascii :=
  match s with
  | EmptyString => []
  | String r s' => if isSep r then r :: sepsOf s' else sepsOf s'
  end.

(** [rejoin ps ds]: the pieces [ps] written one after the other, with
    the next separator of [ds] after each but the last. *)
Fixpoint rejoin (ps : list string) (ds : list ascii) : string :=
  match ps, ds with
  | p :: ps', d :: ds' => p +:+ String d (rejoin ps' ds')
  | p :: _, [] => p
  | [], _ => EmptyString
  end.

(** [glue pre l] puts [pre] in front of the first piece of [l]. *)
Definition glue (pre : string) (l : list string) : list string :=
  match l with
  | p :: ps => (pre +:+ p) :: ps
  | [] => [pre]
  end.

Definition textOf (start : option string) : string :=
  match start with
  | Some t => t
  | None => EmptyString
  end.

(** ** The NSQ client library *)

(** [nsq.LogLevel]. *)
Inductive LogLevel : Type :=
  | LogLevelDebug
  | LogLevelInfo
  | LogLevelWarning
  | LogLevelError.

(** What the package uses of [github.com/nsqio/go-nsq] and of [log]. The
    library's clients and the network they dial live in [World]; an
    operation of the library reads and updates it. A [Config] is owned by
    the builder that created it, so it is kept as a value in the struct
    and [Config_Set] returns the updated one; [nsq.NewConsumer] reads the
    configuration it is given and keeps a copy. The operations are total:
    on the client that [Start] has just built, the library's return. *)
Class NsqLib : Type := {
  Config : Type;
  Client : Type;
  Handler : Type;
  Logger : Type;
  World : Type;
  (** [nsq.NewConfig()] *)
  NewConfig : Config;
  (** [log.New(os.Stderr, "", log.LstdFlags)] *)
  stderrLogger : Logger;
  (** [config.Set(option, value)] *)
  Config_Set : string → Value → Config → Config * option error;
  (** [nsq.NewConsumer(topic, channel, config)] *)
  nsq_NewConsumer : string → string → Config → World → (Client + error) * World;
  (** [client.SetLogger(log, level)] *)
  Client_SetLogger : Client → Logger → LogLevel → World → World;
  (** [client.AddConcurrentHandlers(handler, concurrency)] *)
  Client_AddConcurrentHandlers : Client → Handler → Z → World → World;
  (** [client.ConnectToNSQDs(addresses)] *)
  Client_ConnectToNSQDs : Client → list string → World → option error * World;
  (** [client.ConnectToNSQLookupds(addresses)] *)
  Client_ConnectToNSQLookupds : Client → list string → World → option error * World
}.

(** A call made into the library, as recorded in the call log. *)
Inductive Call : Type :=
  | CallNewConsumer (topic channel : string)
  | CallSetLogger (level : LogLevel)
  | CallAddConcurrentHandlers (concurrency : Z)
  | CallConnectToNSQDs (addresses : list string)
  | CallConnectToNSQLookupds (addresses : list string).

Definition isConnect (k : Call) : bool :=
  match k with
  | CallConnectToNSQDs _ | CallConnectToNSQLookupds _ => true
  | _ => false
  end.

Definition isDiscoveryConnect (k : Call) : bool :=
  match k with
  | CallConnectToNSQLookupds _ => true
  | _ => false
  end.

(** The outcome of running a method: it returns, or it panics. *)
Inductive outcome (A : Type) : Type :=
  | Returns (a : A)
  | Panics (msg : string).
Arguments Returns {A} a.
Arguments Panics {A} msg.

Section Consumer.
Context `{lib : NsqLib}.

(** ** The builder *)

(** [type Consumer struct]. [client] is [None] for the nil pointer and
    [err] is [None] for the nil error; a nil slice is the empty list. *)
Record Consumer : Type := mkConsumer {
  client : option Client;
  config : Config;
  nsqds : list string;
  nsqlookupds : list string;
  concurrency : Z;
  channel : string;
  topic : string;
  level : LogLevel;
  log : Logger;
  err : option error
}.

(** Assignments to one field. *)
Definition with_client (x : option Client) (c : Consumer) : Consumer :=
  mkConsumer x (config c) (nsqds c) (nsqlookupds c) (concurrency c)
    (channel c) (topic c) (level c) (log c) (err c).
Definition with_config (x : Config) (c : Consumer) : Consumer :=
  mkConsumer (client c) x (nsqds c) (nsqlookupds c) (concurrency c)
    (channel c) (topic c) (level c) (log c) (err c).
Definition with_nsqds (x : list string) (c : Consumer) : Consumer :=
  mkConsumer (client c) (config c) x (nsqlookupds c) (concurrency c)
    (channel c) (topic c) (level c) (log c) (err c).
Definition with_nsqlookupds (x : list string) (c : Consumer) : Consumer :=
  mkConsumer (client c) (config c) (nsqds c) x (concurrency c)
    (channel c) (topic c) (level c) (log c) (err c).
Definition with_concurrency (x : Z) (c : Consumer) : Consumer :=
  mkConsumer (client c) (config c) (nsqds c) (nsqlookupds c) x
    (channel c) (topic c) (level c) (log c) (err c).
Definition with_channel (x : string) (c : Consumer) : Consumer :=
  mkConsumer (client c) (config c) (nsqds c) (nsqlookupds c) (concurrency c)
    x (topic c) (level c) (log c) (err c).
Definition with_topic (x : string) (c : Consumer) : Consumer :=
  mkConsumer (client c) (config c) (nsqds c) (nsqlookupds c) (concurrency c)
    (channel c) x (level c) (log c) (err c).
Definition with_level (x : LogLevel) (c : Consumer) : Consumer :=
  mkConsumer (client c) (config c) (nsqds c) (nsqlookupds c) (concurrency c)
    (channel c) (topic c) x (log c) (err c).
Definition with_log (x : Logger) (c : Consumer) : Consumer :=
  mkConsumer (client c) (config c) (nsqds c) (nsqlookupds c) (concurrency c)
    (channel c) (topic c) (level c) x (err c).
Definition with_err (x : option error) (c : Consumer) : Consumer :=
  mkConsumer (client c) (config c) (nsqds c) (nsqlookupds c) (concurrency c)
    (channel c) (topic c) (level c) (log c) x.

(** [NewConsumer] *)
Definition NewConsumer (topic channel : string) : Consumer :=
  {| client := None;
     config := NewConfig;
     nsqds := [];
     nsqlookupds := [];
     concurrency := 1;
     channel := channel;
     topic := topic;
     level := LogLevelInfo;
     log := stderrLogger;
     err := None |}.

(** [SetLogger] *)
Definition SetLogger (log : Logger) (level : LogLevel) (c : Consumer) : Consumer :=
  with_log log (with_level level c).

(** [Set] (the name is a keyword here). The [switch] compares [option]
    with the cases in their order; a failed type assertion assigns the
    error and returns. *)
Definition Set_ (option : string) (value : Value) (c : Consumer) : Consumer :=
  if String.eqb option "topic" then
    match value with
    | VString s => with_topic s c
    | _ => with_err (Some (quoted option +:+ ": expected string")) c
    end
  else if String.eqb option "channel" then
    match value with
    | VString s => with_channel s c
    | _ => with_err (Some (quoted option +:+ ": expected string")) c
    end
  else if String.eqb option "concurrency" then
    match value with
    | VInt s => with_concurrency s c
    | _ => with_err (Some (quoted option +:+ ": expected integer")) c
    end
  else if String.eqb option "nsqd" then
    match value with
    | VString s => with_nsqds [s] c
    | _ => with_err (Some (quoted option +:+ ": expected string")) c
    end
  else if String.eqb option "nsqlookupd" then
    match value with
    | VString s => with_nsqlookupds [s] c
    | _ => with_err (Some (quoted option +:+ ": expected string")) c
    end
  else if String.eqb option "nsqds" then
    match split value with
    | (s, None) => with_nsqds s c
    | (_, Some e) => with_err (Some (quoted option +:+ ": " +:+ e)) c
    end
  else if String.eqb option "nsqlookupds" then
    match split value with
    | (s, None) => with_nsqlookupds s c
    | (_, Some e) => with_err (Some (quoted option +:+ ": " +:+ e)) c
    end
  else
    match Config_Set option value (config c) with
    | (cfg, Some e) => with_err (Some e) (with_config cfg c)
    | (cfg, None) => with_config cfg c
    end.

(** The options of a map applied in the order [kvs]. *)
Definition applyAll (kvs : list (string * Value)) (c : Consumer) : Consumer :=
  foldl (λ c kv, Set_ kv.1 kv.2 c) c kvs.

(** [SetMap]: [range] visits the entries of a map in an order that is not
    specified, so [SetMap options] relates a struct to its update under
    any order of the entries. *)
Definition SetMap (options : gmap string Value) (c c' : Consumer) : Prop :=
  ∃ kvs, kvs ≡ₚ map_to_list options ∧ c' = applyAll kvs c.

(** ** Start-up *)

(** The state a method runs in: the receiver, the library's world, and
    the log of the calls made into the library so far. *)
Record State : Type := mkState {
  self : Consumer;
  world : World;
  calls : list Call
}.

Definition M (A : Type) : Type := State → outcome A * State.

#[export] Instance M_ret : MRet M := λ A a st, (Returns a, st).

#[export] Instance M_bind : MBind M := λ A B k m st,
  match m st with
  | (Returns a, st') => k a st'
  | (Panics msg, st') => (Panics msg, st')
  end.

Definition getSelf : M Consumer := λ st, (Returns (self st), st).

Definition setClient (cl : Client) : M unit :=
  λ st, (Returns (), mkState (with_client (Some cl) (self st)) (world st) (calls st)).

(** [c.client], dereferenced for a method call. *)
Definition derefClient : M Client :=
  λ st,
    match client (self st) with
    | Some cl => (Returns cl, st)
    | None => (Panics "invalid memory address or nil pointer dereference", st)
    end.

(** A library operation run on the world, and logged. *)
Definition libCall {A} (k : Call) (op : World → A * World) : M A :=
  λ st,
    let '(a, w) := op (world st) in
    (Returns a, mkState (self st) w (calls st ++ [k])).

Definition newConsumer (topic channel : string) (cfg : Config) : M (Client + error) :=
  libCall (CallNewConsumer topic channel) (nsq_NewConsumer topic channel cfg).

Definition clientSetLogger (cl : Client) (l : Logger) (lvl : LogLevel) : M unit :=
  libCall (CallSetLogger lvl) (λ w, ((), Client_SetLogger cl l lvl w)).

Definition clientAddConcurrentHandlers (cl : Client) (h : Handler) (n : Z) : M unit :=
  libCall (CallAddConcurrentHandlers n) (λ w, ((), Client_AddConcurrentHandlers cl h n w)).

Definition clientConnectToNSQDs (cl : Client) (addresses : list string) : M (option error) :=
  libCall (CallConnectToNSQDs addresses) (Client_ConnectToNSQDs cl addresses).

Definition clientConnectToNSQLookupds (cl : Client) (addresses : list string)
    : M (option error) :=
  libCall (CallConnectToNSQLookupds addresses) (Client_ConnectToNSQLookupds cl addresses).

(** The error of [connect] when there is nothing to connect to. *)
Definition errNoAddress : error :=
  "at least one " +:+ quoted "nsqd" +:+ " or " +:+ quoted "nsqlookupd"
    +:+ " address must be specified".

(** [connect] *)
Definition connect : M (option error) :=
  c ← getSelf;
  if (length (nsqds c) =? 0)%nat && (length (nsqlookupds c) =? 0)%nat then
    mret (Some errNoAddress)
  else
    r ← (if (0 <? length (nsqds c))%nat then
           cl ← derefClient;
           clientConnectToNSQDs cl (nsqds c)
         else mret None);
    match r with
    | Some e => mret (Some e)
    | None =>
        r' ← (if (0 <? length (nsqlookupds c))%nat then
                cl ← derefClient;
                clientConnectToNSQLookupds cl (nsqlookupds c)
              else mret None);
        match r' with
        | Some e => mret (Some e)
        | None => mret None
        end
    end.

(** [Start] *)
Definition Start (handler : Handler) : M (option error) :=
  c ← getSelf;
  match err c with
  | Some e => mret (Some e)
  | None =>
      r ← newConsumer (topic c) (channel c) (config c);
      match r with
      | inr e => mret (Some e)
      | inl cl =>
          setClient cl;;
          clientSetLogger cl (log c) (level c);;
          clientAddConcurrentHandlers cl handler (concurrency c);;
          connect
      end
  end.

(** ** Notions used in the statements *)

(** The calls [Start] makes before it connects. *)
Definition setupCalls (c : Consumer) : list Call :=
  [CallNewConsumer (topic c) (channel c);
   CallSetLogger (level c);
   CallAddConcurrentHandlers (concurrency c)].

(** The world once [Start] has set up the client [cl] built in [w]. *)
Definition setupWorld (c : Consumer) (h : Handler) (cl : Client) (w : World) : World :=
  Client_AddConcurrentHandlers cl h (concurrency c)
    (Client_SetLogger cl (log c) (level c) w).

(** The calls made into the library between the states [st] and [st']. *)
Definition newCalls (st st' : State) : list Call :=
  drop (length (calls st)) (calls st').

(** The keys of the [switch] in [Set]. *)
Definition recognized : list string :=
  ["topic"; "channel"; "concurrency"; "nsqd"; "nsqlookupd"; "nsqds"; "nsqlookupds"].

(** Whether [value] has the shape that [Set] accepts under the
    recognized key [option]. *)
Definition hasExpectedShape (option : string) (value : Value) : bool :=
  if String.eqb option "concurrency" then
    match value with VInt _ => true | _ => false end
  else if String.eqb option "nsqds" || String.eqb option "nsqlookupds" then
    match value with VString _ | VStrings _ => true | _ => false end
  else
    match value with VString _ => true | _ => false end.

(** The type that the error of the recognized key [option] asks for. *)
Definition expectedType (option : string) : string :=
  if String.eqb option "concurrency" then "integer"
  else if String.eqb option "nsqds" || String.eqb option "nsqlookupds" then
    "string or slice of strings"
  else "string".

(** The error recorded for a value of the wrong type. *)
Definition errExpected (option : string) : error :=
  quoted option +:+ ": expected " +:+ expectedType option.

(** The text [%q: expected <type>] written out byte by byte, the double
    quote being the byte 34: a double quote, the key, a double quote, a
    colon and a space, the word [expected], a space, the type. *)
Definition keyErrorText (key type : string) : string :=
  String "034"%char (key +:+ String "034"%char (": expected " +:+ type)).

(** Whether [needle] occurs in [hay] as a run of consecutive bytes. *)
Fixpoint contains (needle hay : string) : bool :=
  String.prefix needle hay
  || match hay with
     | EmptyString => false
     | String _ hay' => contains needle hay'
     end.

(** The error that the call [Set key value] records in [c], if any:
    what the call leaves in [err] when it starts from no error. *)
Definition recorded (key : string) (value : Value) (c : Consumer) : option error :=
  err (Set_ key value (with_err None c)).

(** The error recorded by the last call of [kvs] that records one, the
    calls being made one after the other from [c]. *)
Fixpoint lastRecorded (kvs : list (string * Value)) (c : Consumer) : option error :=
  match kvs with
  | [] => None
  | kv :: kvs' =>
      match lastRecorded kvs' (Set_ kv.1 kv.2 c) with
      | Some e => Some e
      | None => recorded kv.1 kv.2 c
      end
  end.

(** The builders that can be reached from [NewConsumer] by calls of
    [SetLogger], [Set] and [SetMap] whose options all satisfy [ok]. *)
Inductive Reachable (ok : string → Value → Prop) : Consumer → Prop :=
  | reach_NewConsumer topic channel :
      Reachable ok (NewConsumer topic channel)
  | reach_SetLogger c l lvl :
      Reachable ok c → Reachable ok (SetLogger l lvl c)
  | reach_Set c option value :
      Reachable ok c → ok option value → Reachable ok (Set_ option value c)
  | reach_SetMap c c' options :
      Reachable ok c → map_Forall ok options → SetMap options c c' →
      Reachable ok c'.

(** No restriction on the options. *)
Definition anyOption (option : string) (value : Value) : Prop := True.

(** Every integer given for [concurrency] is at least 1. *)
Definition positiveConcurrency (option : string) (value : Value) : Prop :=
  option = "concurrency" → ∀ n, value = VInt n → 1 ≤ n.

End Consumer.

(** ** A stand-in for the library *)

(** A library for running the builder on concrete inputs. Its world
    counts the clients constructed so far. It accepts one configuration
    key, refuses to build a client for an empty topic or channel, and
    fails to dial the address [down:4150] (directly) and the address
    [down:4161] (as a discovery service). *)
Module Fake.

Definition configSet (key : string) (value : Value) (cfg : list (string * Value))
    : list (string * Value) * option error :=
  if String.eqb key "max_in_flight" then
    match value with
    | VInt _ => ((key, value) :: cfg, None)
    | _ => (cfg, Some "failed to coerce option max_in_flight")
    end
  else (cfg, Some ("invalid option " +:+ key)).

Definition newClient (topic channel : string) (cfg : list (string * Value)) (w : nat)
    : (nat + error) * nat :=
  if nonEmpty topic && nonEmpty channel then (inl w, S w)
  else (inr "invalid topic or channel name", w).

Definition dial (down : string) (addresses : list string) (w : nat)
    : option error * nat :=
  if existsb (String.eqb down) addresses then (Some ("dial tcp " +:+ down +:+ ": connection refused"), w)
  else (None, w).

Definition lib : NsqLib := {|
  Config := list (string * Value);
  Client := nat;
  Handler := unit;
  Logger := string;
  World := nat;
  NewConfig := [];
  stderrLogger := "stderr";
  Config_Set := configSet;
  nsq_NewConsumer := newClient;
  Client_SetLogger := λ _ _ _ w, w;
  Client_AddConcurrentHandlers := λ _ _ _ w, w;
  Client_ConnectToNSQDs := λ _, dial "down:4150";
  Client_ConnectToNSQLookupds := λ _, dial "down:4161"
|}.

(** A freshly created builder, before any call into the library. *)
Definition fresh (topic channel : string) : State (lib := lib) :=
  mkState (NewConsumer (lib := lib) topic channel) 0%nat [].

End Fake.

#[local] Existing Instance Fake.lib.

(** A builder for topic [orders] and channel [workers]. *)
Definition orders : Consumer := NewConsumer "orders" "workers".

(** The same, given one direct address. *)
Definition ordersDirect : Consumer := Set_ "nsqd" (VString "127.0.0.1:4150") orders.

(** The same, given two direct addresses, the second of which cannot be
    dialled, and a discovery address. *)
Definition ordersDown : Consumer :=
  Set_ "nsqlookupd" (VString "127.0.0.1:4161")
    (Set_ "nsqds" (VString "127.0.0.1:4150,down:4150") orders).

(** A map of options, as given to [SetMap]. *)
Definition someOptions : gmap string Value :=
  {[ "nsqd" := VString "127.0.0.1:4150" ]}.

(** ** Further notions: strings of addresses *)

(** [joinWith d fs]: the strings [fs] written one after the other with
    the byte [d] between them ([strings.Join] for a separator of one
    byte). *)
Fixpoint joinWith (d : ascii) (fs : list string) : string :=
  match fs with
  | [] => EmptyString
  | f :: fs' =>
      match fs' with
      | [] => f
      | _ :: _ => f +:+ String d (joinWith d fs')
      end
  end.

(** [s] without its separators. *)
Fixpoint dropSeps (s : string) : string :=
  match s with
  | EmptyString => EmptyString
  | String r s' => if isSep r then dropSeps s' else String r (dropSeps s')
  end.

(** The strings of a list written one after the other. *)
Fixpoint concatAll (fs : list string) : string :=
  match fs with
  | [] => EmptyString
  | f :: fs' => f +:+ concatAll fs'
  end.

(** An address that can be written in a separated string: not empty,
    and with no comma and no space in it. *)
Definition plainAddress (a : string) : Prop :=
  nonEmpty a = true ∧ sepFree a = true.

(** ** Further notions: the phases of [Start] and sequences of calls *)

Section MoreNotions.
Context `{lib : NsqLib}.

(** The direct connection of [connect], run for the client [cl] in the
    world [w]: skipped when there is no direct address. *)
Definition directPhase (c : Consumer) (cl : Client) (w : World) : option error * World :=
  match nsqds c with
  | [] => (None, w)
  | _ :: _ => Client_ConnectToNSQDs cl (nsqds c) w
  end.

(** The discovery connection of [connect], likewise. *)
Definition discoveryPhase (c : Consumer) (cl : Client) (w : World)
    : option error * World :=
  match nsqlookupds c with
  | [] => (None, w)
  | _ :: _ => Client_ConnectToNSQLookupds cl (nsqlookupds c) w
  end.

Definition directCalls (c : Consumer) : list Call :=
  match nsqds c with
  | [] => []
  | _ :: _ => [CallConnectToNSQDs (nsqds c)]
  end.

Definition discoveryCalls (c : Consumer) : list Call :=
  match nsqlookupds c with
  | [] => []
  | _ :: _ => [CallConnectToNSQLookupds (nsqlookupds c)]
  end.

(** The calls of a [Start] that runs to its end, in order. *)
Definition allCalls (c : Consumer) : list Call :=
  setupCalls c ++ directCalls c ++ discoveryCalls c.

(** A call of a method of the builder; a [SetMap] is the [Set]s of its
    entries in the order they are visited. *)
Inductive Op : Type :=
  | OpSetLogger (l : Logger) (lvl : LogLevel)
  | OpSet (key : string) (value : Value)
  | OpStart (h : Handler).

(** The state after a call, whatever it returned. *)
Definition runOp (st : State) (op : Op) : State :=
  match op with
  | OpSetLogger l lvl => mkState (SetLogger l lvl (self st)) (world st) (calls st)
  | OpSet key value => mkState (Set_ key value (self st)) (world st) (calls st)
  | OpStart h => (Start h st).2
  end.

Definition runOps (ops : list Op) (st : State) : State := foldl runOp st ops.

(** What [Set] makes of a field under the key of that field. *)
Definition stringOr (value : Value) (old : string) : string :=
  match value with
  | VString s => s
  | _ => old
  end.

Definition intOr (value : Value) (old : Z) : Z :=
  match value with
  | VInt n => n
  | _ => old
  end.

(** The address list that [nsqd], and the one that [nsqds], leaves. *)
Definition oneAddressOr (value : Value) (old : list string) : list string :=
  match value with
  | VString s => [s]
  | _ => old
  end.

Definition addressesOr (value : Value) (old : list string) : list string :=
  match split value with
  | (l, None) => l
  | (_, Some _) => old
  end.

End MoreNotions.

(** ** Further inputs for the stand-in library *)

(** The options of a consumer of one broker with four handlers. *)
Definition twoOptions : gmap string Value :=
  {[ "nsqd" := VString "127.0.0.1:4150"; "concurrency" := VInt 4 ]}.

(** Options with a topic that is no string. *)
Definition badOptions : gmap string Value :=
  {[ "topic" := VInt 7; "nsqd" := VString "127.0.0.1:4150" ]}.

(** [ordersDirect] with two discovery addresses, the second of which
    cannot be dialled. *)
Definition ordersLookupDown : Consumer :=
  Set_ "nsqlookupds" (VString "127.0.0.1:4161 down:4161") ordersDirect.

(** A builder with an empty topic, for which no client is built. *)
Definition noTopic : Consumer :=
  Set_ "nsqd" (VString "127.0.0.1:4150") (NewConsumer "" "workers").

(** * Properties *)

(** ** Examples of parsing *)

Example split_abc : FieldsFunc "a,b c" isSep = ["a"; "b"; "c"].
Proof. reflexivity. Qed.

Example split_collapse : FieldsFunc "a,,  b" isSep = ["a"; "b"].
Proof. reflexivity. Qed.

Example spec_fields_collapse : spec_fields "a,,  b" = ["a"; "b"].
Proof. reflexivity. Qed.

(** ** Properties of the address-list parser *)

Section Fields.

(** [+:+] is kept folded by [simpl]; its two equations. *)
Lemma append_nil_l (s : string) : EmptyString +:+ s = s.
Proof. reflexivity. Qed.

Lemma append_cons (a : ascii) (s t : string) : String a s +:+ t = String a (s +:+ t).
Proof. reflexivity. Qed.

Lemma append_empty_r (s : string) : s +:+ EmptyString = s.
Proof. induction s as [|a s IH]; [done | by rewrite append_cons, IH]. Qed.

Lemma append_assoc (s t u : string) : (s +:+ t) +:+ u = s +:+ (t +:+ u).
Proof. induction s as [|a s IH]; [done | by rewrite !append_cons, IH]. Qed.

Lemma nonEmpty_append_l (s t : string) : nonEmpty s = true → nonEmpty (s +:+ t) = true.
Proof. by destruct s. Qed.

Lemma nonEmpty_snoc (s : string) (r : ascii) :
  nonEmpty (s +:+ String r EmptyString) = true.
Proof. by destruct s. Qed.

Lemma pieces_cons (s : string) : ∃ p ps, pieces s = p :: ps.
Proof.
  destruct s as [|r s]; simpl; [by eauto |].
  destruct (isSep r); [by eauto |].
  destruct (pieces s); eauto.
Qed.

(** The loop, started inside or outside a field, computes the non-empty
    pieces of what is left, the text of the open field put before the
    first of them. *)
Lemma fieldsLoop_pieces (s : string) : ∀ start,
  (∀ t, start = Some t → nonEmpty t = true) →
  fieldsLoop isSep start s
  = filter (λ p, nonEmpty p = true) (glue (textOf start) (pieces s)).
Proof.
  induction s as [|r s IH]; intros start Hstart.
  - destruct start as [t|]; simpl; [|done].
    rewrite append_empty_r.
    rewrite filter_cons_True by eauto. done.
  - simpl. destruct (isSep r) eqn:Hr.
    + rewrite (IH None) by done.
      destruct (pieces_cons s) as (p & ps & Hp). rewrite Hp. simpl.
      destruct start as [t|]; simpl.
      * rewrite append_empty_r.
        rewrite (filter_cons_True _ t) by eauto. done.
      * rewrite append_nil_l.
        rewrite (filter_cons_False _ EmptyString) by (simpl; congruence). done.
    + destruct (pieces_cons s) as (p & ps & Hp).
      destruct start as [t|].
      * rewrite IH by (intros ? [= <-]; apply nonEmpty_snoc).
        rewrite Hp. simpl. by rewrite append_assoc.
      * rewrite IH by (by intros ? [= <-]).
        rewrite Hp. simpl. by rewrite append_cons, !append_nil_l.
Qed.

(** [FieldsFunc] with the separator test of [split] is the parsing rule
    of the specification. *)
Lemma FieldsFunc_spec_fields (s : string) : FieldsFunc s isSep = spec_fields s.
Proof.
  unfold FieldsFunc, spec_fields.
  rewrite fieldsLoop_pieces by done.
  destruct (pieces_cons s) as (p & ps & Hp). rewrite Hp. simpl.
  by rewrite append_nil_l.
Qed.

(** [pieces] cuts [s] at its separators and nowhere else: there is one
    piece more than there are separators, no piece holds a separator, and
    the pieces with the separators back between them are [s]. So the
    pieces are the maximal separator-free runs of [s]. *)
Lemma pieces_maximal_runs (s : string) :
  length (pieces s) = S (length (sepsOf s))
  ∧ Forall (λ p, sepFree p = true) (pieces s)
  ∧ rejoin (pieces s) (sepsOf s) = s.
Proof.
  induction s as [|r s (IHlen & IHfree & IHjoin)]; simpl.
  - repeat split. by constructor.
  - destruct (isSep r) eqn:Hr; simpl.
    + rewrite IHlen. repeat split; [by constructor | by rewrite IHjoin].
    + destruct (pieces_cons s) as (p & ps & Hp). rewrite Hp in *.
      simpl in *. inversion IHfree as [|? ? Hfp Hfps]; subst.
      repeat split; [done | |].
      * constructor; [simpl; by rewrite Hr, Hfp | done].
      * rewrite <- IHjoin at 2. by destruct (sepsOf s).
Qed.

(** Every field is non-empty and holds no separator. *)
Lemma FieldsFunc_fields (s : string) :
  Forall (λ p, nonEmpty p = true ∧ sepFree p = true) (FieldsFunc s isSep).
Proof.
  rewrite FieldsFunc_spec_fields. unfold spec_fields.
  destruct (pieces_maximal_runs s) as (_ & Hfree & _).
  apply Forall_forall. intros p Hp.
  apply list_elem_of_filter in Hp as [Hne Hin].
  rewrite Forall_forall in Hfree. auto.
Qed.

(** A string of separators has no field. *)
Lemma fieldsLoop_onlySeps (s : string) :
  onlySeps s = true → fieldsLoop isSep None s = [].
Proof.
  induction s as [|r s IH]; simpl; [done |].
  intros [Hr Hs]%andb_prop. rewrite Hr. auto.
Qed.

(** And only such a string has none. *)
Lemma fieldsLoop_nil_inv (s : string) : ∀ start,
  fieldsLoop isSep start s = [] → start = None ∧ onlySeps s = true.
Proof.
  induction s as [|r s IH]; intros start; simpl.
  - by destruct start.
  - destruct (isSep r), start; try done; simpl.
    + intros H. apply IH in H as [_ ?]. done.
    + intros H. by apply IH in H as [? _].
    + intros H. by apply IH in H as [? _].
Qed.

(** *** The fields are the maximal runs, and nothing else is *)






Lemma fieldsLoop_in_field f x : ∀ t,
  sepFree f = true →
  fieldsLoop isSep (Some t) (f +:+ x) = fieldsLoop isSep (Some (t +:+ f)) x.
Proof.
  induction f as [|r f IH]; intros t Hf.
  - by rewrite append_empty_r.
  - simpl in Hf. apply andb_prop in Hf as [Hr%negb_true_iff Hf].
    simpl. rewrite Hr, IH by done.
    by rewrite append_assoc.
Qed.

Lemma fieldsLoop_enter_field f x :
  nonEmpty f = true → sepFree f = true →
  fieldsLoop isSep None (f +:+ x) = fieldsLoop isSep (Some f) x.
Proof.
  destruct f as [|r f]; [done |]. intros _ Hf.
  simpl in Hf. apply andb_prop in Hf as [Hr%negb_true_iff Hf].
  simpl. rewrite Hr. by rewrite fieldsLoop_in_field.
Qed.



End Fields.

(** ** Properties of [Set], [SetMap] and [Start] *)

Section Properties.
Context `{lib : NsqLib}.

Implicit Types (c : Consumer) (st : State) (h : Handler) (e : error).

(** Unfolds the monad of [Start]. *)
Ltac run_start :=
  unfold Start, connect, newConsumer, clientSetLogger, clientAddConcurrentHandlers,
    clientConnectToNSQDs, clientConnectToNSQLookupds, derefClient, setClient,
    getSelf, libCall, mbind, mret, M_bind, M_ret; simpl.

Lemma Start_deferred h st e :
  err (self st) = Some e → Start h st = (Returns (Some e), st).
Proof. intros He. run_start. by rewrite He. Qed.

Lemma Start_construct_failed h st e w :
  err (self st) = None →
  nsq_NewConsumer (topic (self st)) (channel (self st)) (config (self st)) (world st)
    = (inr e, w) →
  Start h st
  = (Returns (Some e),
     mkState (self st) w
       (calls st ++ [CallNewConsumer (topic (self st)) (channel (self st))])).
Proof. intros He Hn. run_start. by rewrite He, Hn. Qed.

(** With no deferred error and a client built, [Start] is [connect] run
    after the set-up calls. *)
Lemma Start_connect h st cl w :
  err (self st) = None →
  nsq_NewConsumer (topic (self st)) (channel (self st)) (config (self st)) (world st)
    = (inl cl, w) →
  Start h st
  = connect (mkState (with_client (Some cl) (self st))
               (setupWorld (self st) h cl w)
               (calls st ++ setupCalls (self st))).
Proof.
  intros He Hn. run_start. rewrite He, Hn. simpl.
  by rewrite <- !(assoc_L (++)).
Qed.

Lemma connect_no_address st :
  nsqds (self st) = [] → nsqlookupds (self st) = [] →
  connect st = (Returns (Some errNoAddress), st).
Proof. intros H1 H2. run_start. by rewrite H1, H2. Qed.

Lemma connect_direct_failed st cl e w :
  client (self st) = Some cl →
  nsqds (self st) ≠ [] →
  Client_ConnectToNSQDs cl (nsqds (self st)) (world st) = (Some e, w) →
  connect st
  = (Returns (Some e),
     mkState (self st) w (calls st ++ [CallConnectToNSQDs (nsqds (self st))])).
Proof.
  intros Hcl Hne Hd. run_start.
  destruct (nsqds (self st)) as [|a l] eqn:Hl; [done |]. simpl.
  by rewrite Hcl, Hd.
Qed.

Lemma newCalls_app st st' ks : calls st' = calls st ++ ks → newCalls st st' = ks.
Proof. intros H. unfold newCalls. by rewrite H, drop_app_length. Qed.

Lemma with_client_id c : with_client (client c) c = c.
Proof. by destruct c. Qed.

(** *** Start-up: the deferred error *)

(** C6: in a state whose deferred error is set, [Start] returns that
    error at once and leaves the whole state as it was: the client handle
    is not written, the world of the library is untouched, and no call
    into the library (construction, logger, handlers, connection) is
    made. *)
Theorem Start_deferred_error_first h st e :
  err (self st) = Some e →
  Start h st = (Returns (Some e), st)
  ∧ client (self (Start h st).2) = client (self st)
  ∧ world (Start h st).2 = world st
  ∧ newCalls st (Start h st).2 = [].
Proof.
  intros He. rewrite (Start_deferred h st e He). simpl.
  repeat split. apply newCalls_app. by rewrite app_nil_r.
Qed.

(** *** Start-up: nothing to connect to *)

(** C4, as amended: with no deferred error, a client built, and both
    address lists empty, [Start] returns the error of [connect], whose
    text is [at least one "nsqd" or "nsqlookupd" address must be
    specified], after the three set-up calls and no connection call. *)
Theorem Start_no_address h st cl w :
  err (self st) = None →
  nsq_NewConsumer (topic (self st)) (channel (self st)) (config (self st)) (world st)
    = (inl cl, w) →
  nsqds (self st) = [] →
  nsqlookupds (self st) = [] →
  ∃ st', Start h st = (Returns (Some errNoAddress), st')
    ∧ newCalls st st' = setupCalls (self st)
    ∧ Forall (λ k, isConnect k = false) (newCalls st st').
Proof.
  intros He Hn H1 H2. rewrite (Start_connect h st cl w He Hn).
  eexists. split; [by apply connect_no_address |].
  rewrite (newCalls_app st _ (setupCalls (self st))) by done.
  split; [done |]. by repeat constructor.
Qed.

(** *** Start-up: the direct phase fails *)

(** C5: with a non-empty list of direct addresses, when the direct
    connection fails with [e], [Start] returns [e] and the call to the
    direct connection is the last call it makes: the discovery
    connection is not attempted, whatever the discovery list holds. *)
Theorem Start_direct_failure h st cl w e w' :
  err (self st) = None →
  nsq_NewConsumer (topic (self st)) (channel (self st)) (config (self st)) (world st)
    = (inl cl, w) →
  nsqds (self st) ≠ [] →
  Client_ConnectToNSQDs cl (nsqds (self st)) (setupWorld (self st) h cl w) = (Some e, w') →
  ∃ st', Start h st = (Returns (Some e), st')
    ∧ newCalls st st' = setupCalls (self st) ++ [CallConnectToNSQDs (nsqds (self st))]
    ∧ Forall (λ k, isDiscoveryConnect k = false) (newCalls st st').
Proof.
  intros He Hn Hne Hd. rewrite (Start_connect h st cl w He Hn).
  eexists. split.
  { by apply (connect_direct_failed _ cl e w'). }
  rewrite (newCalls_app st _
             (setupCalls (self st) ++ [CallConnectToNSQDs (nsqds (self st))])).
  - split; [done |]. by repeat constructor.
  - simpl. by rewrite <- !(assoc_L (++)).
Qed.

(** [Start] returns: the handle it dereferences in [connect] is the one
    it has just assigned. *)
Lemma Start_returns h st : ∃ r st', Start h st = (Returns r, st').
Proof.
  run_start. destruct (err (self st)) as [e|]; simpl; [by eauto |].
  destruct (nsq_NewConsumer _ _ _ _) as [[cl|e] w]; simpl; [|by eauto].
  destruct (nsqds (self st)) as [|a l]; simpl;
    destruct (nsqlookupds (self st)) as [|a' l']; simpl; [by eauto | | |].
  - destruct (Client_ConnectToNSQLookupds _ _ _) as [[?|] ?]; eauto.
  - destruct (Client_ConnectToNSQDs _ _ _) as [[?|] ?]; eauto.
  - destruct (Client_ConnectToNSQDs _ _ _) as [[?|] ?]; simpl; [by eauto |].
    destruct (Client_ConnectToNSQLookupds _ _ _) as [[?|] ?]; eauto.
Qed.

(** *** Start-up: what it writes *)

(** C9: [Start] changes no field of the builder but the client handle,
    and it sets the handle to the new client exactly when there is no
    deferred error and the construction succeeds, whatever the
    connection phases do afterwards; otherwise the handle is as it was. *)
Theorem Start_frame h st :
  self (Start h st).2 = with_client (client (self (Start h st).2)) (self st)
  ∧ client (self (Start h st).2)
    = match err (self st),
            (nsq_NewConsumer (topic (self st)) (channel (self st)) (config (self st))
               (world st)).1 with
      | None, inl cl => Some cl
      | _, _ => client (self st)
      end.
Proof.
  run_start. destruct (err (self st)) as [e|]; simpl.
  { by rewrite with_client_id. }
  destruct (nsq_NewConsumer _ _ _ _) as [[cl|e] w]; simpl.
  2: { by rewrite with_client_id. }
  destruct (nsqds (self st)) as [|a l]; simpl;
    destruct (nsqlookupds (self st)) as [|a' l']; simpl; try done.
  - by destruct (Client_ConnectToNSQLookupds _ _ _) as [[?|] ?].
  - by destruct (Client_ConnectToNSQDs _ _ _) as [[?|] ?].
  - destruct (Client_ConnectToNSQDs _ _ _) as [[?|] ?]; simpl; [done |].
    by destruct (Client_ConnectToNSQLookupds _ _ _) as [[?|] ?].
Qed.

(** *** Option setting: address lists *)


(** *** Option setting: wrong types *)

Ltac recognized_cases H :=
  unfold recognized in H;
  repeat (apply elem_of_cons in H as [->|H]);
  [.. | by apply elem_of_nil in H].

(** C3: for a recognized key and a value of the wrong type, [Set]
    returns (it cannot fail) a builder that differs from the old one in
    the deferred error only, the error names the key and the expected
    type, and [Start] then returns that error. The text of the error is
    the key between double quotes, a colon, and [expected] with the
    type; the key and the type both occur in it. *)
Theorem Set_wrong_type c option value h w ks :
  option ∈ recognized →
  hasExpectedShape option value = false →
  Set_ option value c = with_err (Some (errExpected option)) c
  ∧ Start h (mkState (Set_ option value c) w ks)
    = (Returns (Some (errExpected option)), mkState (Set_ option value c) w ks)
  ∧ err (Set_ option value c) = Some (keyErrorText option (expectedType option))
  ∧ (Start h (mkState (Set_ option value c) w ks)).1
    = Returns (Some (keyErrorText option (expectedType option)))
  ∧ ∃ e, err (Set_ option value c) = Some e
         ∧ contains option e = true
         ∧ contains (expectedType option) e = true
         ∧ String.prefix (String "034"%char option) e = true.
Proof.
  intros Hkey Hshape.
  assert (Set_ option value c = with_err (Some (errExpected option)) c) as Hset.
  { recognized_cases Hkey; by destruct value. }
  assert (errExpected option = keyErrorText option (expectedType option)
          ∧ contains option (errExpected option) = true
          ∧ contains (expectedType option) (errExpected option) = true
          ∧ String.prefix (String "034"%char option) (errExpected option) = true)
    as (Htext & Hk & Ht & Hq).
  { recognized_cases Hkey; by vm_compute. }
  assert (Start h (mkState (Set_ option value c) w ks)
          = (Returns (Some (errExpected option)), mkState (Set_ option value c) w ks))
    as Hstart.
  { apply Start_deferred. by rewrite Hset. }
  split; [done |]. split; [done |].
  split; [by rewrite Hset, <- Htext |].
  split; [by rewrite Hstart, <- Htext |].
  exists (errExpected option). by rewrite Hset.
Qed.

(** *** Option setting: overwriting *)

(** C7: two well-typed calls under the same address key leave what the
    second one stores: [[y]] for [nsqd] and [nsqlookupd], the list of the
    second value for [nsqds] and [nsqlookupds]. *)
Theorem Set_overwrites c x y vx vy lx ly :
  split vx = (lx, None) →
  split vy = (ly, None) →
  nsqds (Set_ "nsqd" (VString y) (Set_ "nsqd" (VString x) c)) = [y]
  ∧ nsqlookupds (Set_ "nsqlookupd" (VString y) (Set_ "nsqlookupd" (VString x) c)) = [y]
  ∧ nsqds (Set_ "nsqds" vy (Set_ "nsqds" vx c)) = ly
  ∧ nsqlookupds (Set_ "nsqlookupds" vy (Set_ "nsqlookupds" vx c)) = ly.
Proof.
  intros Hx Hy. repeat split; try done.
  - unfold Set_. simpl. by rewrite Hx, Hy.
  - unfold Set_. simpl. by rewrite Hx, Hy.
Qed.

(** *** Option setting: strings of separators *)

(** C10: a string made of commas and spaces only (the empty string
    included) under [nsqds] records no error and stores the empty list,
    whatever list was there, and likewise under [nsqlookupds]; when the
    other list is empty too, there is no deferred error and the client
    can be built, [Start] then fails for want of an address. *)
Theorem Set_only_separators c s :
  onlySeps s = true →
  Set_ "nsqds" (VString s) c = with_nsqds [] c
  ∧ Set_ "nsqlookupds" (VString s) c = with_nsqlookupds [] c
  ∧ (∀ h w ks cl w',
       err c = None → nsqlookupds c = [] →
       nsq_NewConsumer (topic c) (channel c) (config c) w = (inl cl, w') →
       (Start h (mkState (Set_ "nsqds" (VString s) c) w ks)).1
       = Returns (Some errNoAddress))
  ∧ (∀ h w ks cl w',
       err c = None → nsqds c = [] →
       nsq_NewConsumer (topic c) (channel c) (config c) w = (inl cl, w') →
       (Start h (mkState (Set_ "nsqlookupds" (VString s) c) w ks)).1
       = Returns (Some errNoAddress)).
Proof.
  intros Hs.
  assert (Set_ "nsqds" (VString s) c = with_nsqds [] c) as H1.
  { unfold Set_, FieldsFunc. simpl. unfold FieldsFunc. by rewrite fieldsLoop_onlySeps. }
  assert (Set_ "nsqlookupds" (VString s) c = with_nsqlookupds [] c) as H2.
  { unfold Set_, FieldsFunc. simpl. unfold FieldsFunc. by rewrite fieldsLoop_onlySeps. }
  split; [done |]. split; [done |]. split.
  - intros h w ks cl w' He Hl Hn. rewrite H1.
    rewrite (Start_connect h _ cl w') by done.
    by rewrite connect_no_address.
  - intros h w ks cl w' He Hl Hn. rewrite H2.
    rewrite (Start_connect h _ cl w') by done.
    by rewrite connect_no_address.
Qed.

(** *** The deferred error along a sequence of calls *)

(** [Set] never reads [err]: it assigns it when the call records an
    error, and leaves it otherwise. *)
Lemma Set_err option value c :
  err (Set_ option value c)
  = match recorded option value c with
    | Some e => Some e
    | None => err c
    end.
Proof.
  unfold recorded, Set_.
  repeat (destruct (String.eqb option _); [by destruct value |]).
  simpl. by destruct (Config_Set _ _ _) as [cfg [e|]].
Qed.

Lemma applyAll_cons kv kvs c :
  applyAll (kv :: kvs) c = applyAll kvs (Set_ kv.1 kv.2 c).
Proof. reflexivity. Qed.

Lemma applyAll_err kvs : ∀ c,
  err (applyAll kvs c)
  = match lastRecorded kvs c with
    | Some e => Some e
    | None => err c
    end.
Proof.
  induction kvs as [|kv kvs IH]; intros c; [done |].
  rewrite applyAll_cons, IH, Set_err. simpl.
  destruct (lastRecorded kvs (Set_ kv.1 kv.2 c)); [done |].
  by destruct (recorded kv.1 kv.2 c).
Qed.

(** C1, as amended: once a configuration error is recorded, no later
    call of [Set] clears the deferred error: a call that records no
    error leaves it as it is, a call that records one replaces it; so
    after any sequence of later calls the deferred error is the one
    recorded last (the first one only if no later call records one), and
    that is the error [Start] returns. *)
Theorem deferred_error_last_wins c e :
  err c = Some e →
  (∀ option value,
     err (Set_ option value c)
     = match recorded option value c with
       | Some e' => Some e'
       | None => Some e
       end)
  ∧ (∀ kvs h w ks,
       let e' := default e (lastRecorded kvs c) in
       err (applyAll kvs c) = Some e'
       ∧ Start h (mkState (applyAll kvs c) w ks)
         = (Returns (Some e'), mkState (applyAll kvs c) w ks)).
Proof.
  intros He. split.
  - intros option value. by rewrite Set_err, He.
  - intros kvs h w ks e'.
    assert (err (applyAll kvs c) = Some e') as H.
    { rewrite applyAll_err, He. unfold e'. by destruct (lastRecorded kvs c). }
    split; [done |]. by apply Start_deferred.
Qed.

(** *** The range of [concurrency] *)

(** [Set] assigns [concurrency] under that key and with an integer
    only, and then stores the integer as it is. *)
Lemma Set_concurrency option value c :
  concurrency (Set_ option value c) = concurrency c
  ∨ ∃ n, option = "concurrency" ∧ value = VInt n
         ∧ concurrency (Set_ option value c) = n.
Proof.
  unfold Set_.
  destruct (String.eqb option "topic"); [left; by destruct value |].
  destruct (String.eqb option "channel"); [left; by destruct value |].
  destruct (String.eqb_spec option "concurrency") as [->|_].
  { destruct value; eauto. }
  repeat (destruct (String.eqb option _); [left; by destruct value |]).
  left. by destruct (Config_Set _ _ _) as [cfg [e|]].
Qed.

Lemma Set_concurrency_positive option value c :
  positiveConcurrency option value →
  1 ≤ concurrency c → 1 ≤ concurrency (Set_ option value c).
Proof.
  intros Hok Hc.
  destruct (Set_concurrency option value c) as [->|(n & -> & -> & ->)]; [done |].
  by apply Hok.
Qed.

Lemma applyAll_concurrency_positive kvs : ∀ c,
  Forall (uncurry positiveConcurrency) kvs →
  1 ≤ concurrency c → 1 ≤ concurrency (applyAll kvs c).
Proof.
  induction kvs as [|[k v] kvs IH]; intros c Hok Hc; [done |].
  inversion Hok as [|? ? Hkv Hkvs]; subst.
  rewrite applyAll_cons. apply IH; [done |]. by apply Set_concurrency_positive.
Qed.

(** C8, as amended: [concurrency] is 1 at creation, and at least 1 in
    every builder reached by calls of [SetLogger], [Set] and [SetMap] in
    which every integer given for [concurrency] is at least 1. *)
Theorem concurrency_positive c :
  Reachable positiveConcurrency c →
  (∀ topic channel, concurrency (NewConsumer topic channel) = 1)
  ∧ 1 ≤ concurrency c.
Proof.
  intros Hreach. split; [done |].
  induction Hreach as [| |c k v _ IH Hok|c c' options _ IH Hok (kvs & Hperm & ->)].
  - done.
  - done.
  - by apply Set_concurrency_positive.
  - apply applyAll_concurrency_positive; [|done].
    rewrite Hperm. by apply map_Forall_to_list.
Qed.

End Properties.

(** ** Runs on the stand-in library *)

Example end_to_end :
  Start () (mkState (applyAll [("nsqd", VString "127.0.0.1:4150"); ("concurrency", VInt 4)]
                       orders) 0%nat [])
  = (Returns None,
     mkState (with_client (Some 0%nat)
                (with_concurrency 4 ordersDirect)) 1%nat
       [CallNewConsumer "orders" "workers"; CallSetLogger LogLevelInfo;
        CallAddConcurrentHandlers 4; CallConnectToNSQDs ["127.0.0.1:4150"]]).
Proof. reflexivity. Qed.

(** C1, counterexample: two wrong-typed options in a row; the second
    error replaces the first in the deferred error, and [Start] returns
    the second. *)
Lemma deferred_error_first_lost :
  let c1 := Set_ "topic" (VInt 7) orders in
  let c2 := Set_ "channel" (VInt 9) c1 in
  err c1 = Some (quoted "topic" +:+ ": expected string")
  ∧ err c2 = Some (quoted "channel" +:+ ": expected string")
  ∧ err c2 ≠ err c1
  ∧ (Start () (mkState c2 0%nat [])).1
    = Returns (Some (quoted "channel" +:+ ": expected string")).
Proof. repeat split. by vm_compute. Qed.

Lemma deferred_error_last_wins_witness :
  let c1 := Set_ "topic" (VInt 7) orders in
  let e := quoted "topic" +:+ ": expected string" in
  err c1 = Some e
  ∧ (∀ option value,
       err (Set_ option value c1)
       = match recorded option value c1 with
         | Some e' => Some e'
         | None => Some e
         end)
  ∧ (∀ kvs h w ks,
       let e' := default e (lastRecorded kvs c1) in
       err (applyAll kvs c1) = Some e'
       ∧ Start h (mkState (applyAll kvs c1) w ks)
         = (Returns (Some e'), mkState (applyAll kvs c1) w ks)).
Proof.
  split; [reflexivity |].
  exact (deferred_error_last_wins (Set_ "topic" (VInt 7) orders)
           (quoted "topic" +:+ ": expected string") eq_refl).
Defined.

Lemma Set_wrong_type_witness :
  "nsqd" ∈ recognized
  ∧ hasExpectedShape "nsqd" (VInt 4150) = false
  ∧ Set_ "nsqd" (VInt 4150) ordersDirect
    = with_err (Some (errExpected "nsqd")) ordersDirect
  ∧ Start () (mkState (Set_ "nsqd" (VInt 4150) ordersDirect) 0%nat [])
    = (Returns (Some (errExpected "nsqd")),
       mkState (Set_ "nsqd" (VInt 4150) ordersDirect) 0%nat [])
  ∧ err (Set_ "nsqd" (VInt 4150) ordersDirect)
    = Some (keyErrorText "nsqd" (expectedType "nsqd"))
  ∧ (Start () (mkState (Set_ "nsqd" (VInt 4150) ordersDirect) 0%nat [])).1
    = Returns (Some (keyErrorText "nsqd" (expectedType "nsqd")))
  ∧ ∃ e, err (Set_ "nsqd" (VInt 4150) ordersDirect) = Some e
         ∧ contains "nsqd" e = true
         ∧ contains (expectedType "nsqd") e = true
         ∧ String.prefix (String "034"%char "nsqd") e = true.
Proof.
  assert ("nsqd" ∈ recognized) as Hkey by (unfold recognized; set_solver).
  split; [exact Hkey |]. split; [reflexivity |].
  exact (Set_wrong_type ordersDirect "nsqd" (VInt 4150) () 0%nat [] Hkey eq_refl).
Defined.

(** The seven errors, byte for byte: the key between double quotes (the
    byte 34), and the type that was expected. *)
Example wrong_type_errors :
  err (Set_ "topic" (VInt 7) orders)
  = Some (String "034"%char ("topic" +:+ String "034"%char ": expected string"))
  ∧ err (Set_ "channel" (VStrings ["a"]) orders)
    = Some (String "034"%char ("channel" +:+ String "034"%char ": expected string"))
  ∧ err (Set_ "concurrency" (VString "4") orders)
    = Some (String "034"%char ("concurrency" +:+ String "034"%char ": expected integer"))
  ∧ err (Set_ "nsqd" (VStrings ["a"]) orders)
    = Some (String "034"%char ("nsqd" +:+ String "034"%char ": expected string"))
  ∧ err (Set_ "nsqlookupd" (VOther "bool") orders)
    = Some (String "034"%char ("nsqlookupd" +:+ String "034"%char ": expected string"))
  ∧ err (Set_ "nsqds" (VInt 4150) orders)
    = Some (String "034"%char
              ("nsqds" +:+ String "034"%char ": expected string or slice of strings"))
  ∧ err (Set_ "nsqlookupds" (VOther "nil") orders)
    = Some (String "034"%char
              ("nsqlookupds"
               +:+ String "034"%char ": expected string or slice of strings")).
Proof. repeat split. Qed.

(** C4, counterexample: with nothing to connect to, the text of the
    error that [Start] returns is the one of [connect], which names the
    two options, not the text of the claim. *)
Lemma Start_no_address_text :
  let st := Fake.fresh "orders" "workers" in
  err (self st) = None
  ∧ nsqds (self st) = []
  ∧ nsqlookupds (self st) = []
  ∧ nsq_NewConsumer (topic (self st)) (channel (self st)) (config (self st)) (world st)
    = (inl 0%nat, 1%nat)
  ∧ (Start () st).1 = Returns (Some errNoAddress)
  ∧ (Start () st).1
    ≠ Returns (Some "at least one direct or discovery address must be specified").
Proof. repeat split. by vm_compute. Qed.

Lemma Start_no_address_witness :
  let st := Fake.fresh "orders" "workers" in
  err (self st) = None
  ∧ nsq_NewConsumer (topic (self st)) (channel (self st)) (config (self st)) (world st)
    = (inl 0%nat, 1%nat)
  ∧ nsqds (self st) = []
  ∧ nsqlookupds (self st) = []
  ∧ ∃ st', Start () st = (Returns (Some errNoAddress), st')
      ∧ newCalls st st' = setupCalls (self st)
      ∧ Forall (λ k, isConnect k = false) (newCalls st st').
Proof.
  repeat (split; [reflexivity |]).
  exact (Start_no_address () (Fake.fresh "orders" "workers") 0%nat 1%nat
           eq_refl eq_refl eq_refl eq_refl).
Defined.

Lemma Start_direct_failure_witness :
  let st := mkState ordersDown 0%nat [] in
  let e := "dial tcp down:4150: connection refused" in
  err (self st) = None
  ∧ nsq_NewConsumer (topic (self st)) (channel (self st)) (config (self st)) (world st)
    = (inl 0%nat, 1%nat)
  ∧ nsqds (self st) ≠ []
  ∧ nsqlookupds (self st) = ["127.0.0.1:4161"]
  ∧ Client_ConnectToNSQDs 0%nat (nsqds (self st)) (setupWorld (self st) () 0%nat 1%nat)
    = (Some e, 1%nat)
  ∧ ∃ st', Start () st = (Returns (Some e), st')
      ∧ newCalls st st'
        = setupCalls (self st) ++ [CallConnectToNSQDs (nsqds (self st))]
      ∧ Forall (λ k, isDiscoveryConnect k = false) (newCalls st st').
Proof.
  assert (nsqds ordersDown ≠ []) as Hne by (by vm_compute).
  split; [reflexivity |]. split; [reflexivity |]. split; [exact Hne |].
  split; [reflexivity |]. split; [reflexivity |].
  exact (Start_direct_failure () (mkState ordersDown 0%nat []) 0%nat 1%nat
           "dial tcp down:4150: connection refused" 1%nat
           eq_refl eq_refl Hne eq_refl).
Defined.

Lemma Start_deferred_error_first_witness :
  let st := mkState (Set_ "concurrency" (VString "four") ordersDirect) 0%nat [] in
  let e := quoted "concurrency" +:+ ": expected integer" in
  err (self st) = Some e
  ∧ Start () st = (Returns (Some e), st)
  ∧ client (self (Start () st).2) = client (self st)
  ∧ world (Start () st).2 = world st
  ∧ newCalls st (Start () st).2 = [].
Proof.
  split; [reflexivity |].
  exact (Start_deferred_error_first ()
           (mkState (Set_ "concurrency" (VString "four") ordersDirect) 0%nat [])
           (quoted "concurrency" +:+ ": expected integer") eq_refl).
Defined.

Lemma Set_overwrites_witness :
  let vx := VString "a:4150, b:4150" in
  let vy := VStrings ["c:4150"] in
  split vx = (["a:4150"; "b:4150"], None)
  ∧ split vy = (["c:4150"], None)
  ∧ nsqds (Set_ "nsqd" (VString "y:4150") (Set_ "nsqd" (VString "x:4150") orders))
    = ["y:4150"]
  ∧ nsqlookupds
      (Set_ "nsqlookupd" (VString "y:4150") (Set_ "nsqlookupd" (VString "x:4150") orders))
    = ["y:4150"]
  ∧ nsqds (Set_ "nsqds" vy (Set_ "nsqds" vx orders)) = ["c:4150"]
  ∧ nsqlookupds (Set_ "nsqlookupds" vy (Set_ "nsqlookupds" vx orders)) = ["c:4150"].
Proof.
  split; [reflexivity |]. split; [reflexivity |].
  exact (Set_overwrites orders "x:4150" "y:4150"
           (VString "a:4150, b:4150") (VStrings ["c:4150"])
           ["a:4150"; "b:4150"] ["c:4150"] eq_refl eq_refl).
Defined.

(** C8, counterexample: [Set] stores the integer 0 under [concurrency]. *)
Lemma concurrency_zero_reachable :
  Reachable anyOption (Set_ "concurrency" (VInt 0) orders)
  ∧ concurrency (Set_ "concurrency" (VInt 0) orders) = 0
  ∧ ¬ 1 ≤ concurrency (Set_ "concurrency" (VInt 0) orders).
Proof.
  split; [|split; [reflexivity | by vm_compute]].
  apply reach_Set; [apply reach_NewConsumer | exact I].
Qed.

Lemma someOptions_positive : map_Forall positiveConcurrency someOptions.
Proof.
  unfold someOptions. apply map_Forall_singleton. intros [=].
Qed.

Lemma reachable_configured :
  Reachable positiveConcurrency
    (applyAll (map_to_list someOptions)
       (Set_ "concurrency" (VInt 4) (SetLogger "syslog" LogLevelWarning orders))).
Proof.
  eapply reach_SetMap; [| exact someOptions_positive | by eexists].
  apply reach_Set; [apply reach_SetLogger, reach_NewConsumer |].
  intros _ n [= <-]. lia.
Defined.

Lemma concurrency_positive_witness :
  let c := applyAll (map_to_list someOptions)
             (Set_ "concurrency" (VInt 4) (SetLogger "syslog" LogLevelWarning orders)) in
  Reachable positiveConcurrency c
  ∧ (∀ topic channel, concurrency (NewConsumer topic channel) = 1)
  ∧ 1 ≤ concurrency c.
Proof.
  split; [exact reachable_configured |].
  exact (concurrency_positive _ reachable_configured).
Defined.

Lemma Set_only_separators_witness :
  onlySeps ", ," = true
  ∧ Set_ "nsqds" (VString ", ,") ordersDirect = with_nsqds [] ordersDirect
  ∧ Set_ "nsqlookupds" (VString ", ,") ordersDirect = with_nsqlookupds [] ordersDirect
  ∧ (∀ h w ks cl w',
       err ordersDirect = None → nsqlookupds ordersDirect = [] →
       nsq_NewConsumer (topic ordersDirect) (channel ordersDirect) (config ordersDirect) w
       = (inl cl, w') →
       (Start h (mkState (Set_ "nsqds" (VString ", ,") ordersDirect) w ks)).1
       = Returns (Some errNoAddress))
  ∧ (∀ h w ks cl w',
       err ordersDirect = None → nsqds ordersDirect = [] →
       nsq_NewConsumer (topic ordersDirect) (channel ordersDirect) (config ordersDirect) w
       = (inl cl, w') →
       (Start h (mkState (Set_ "nsqlookupds" (VString ", ,") ordersDirect) w ks)).1
       = Returns (Some errNoAddress)).
Proof.
  split; [reflexivity |].
  exact (Set_only_separators ordersDirect ", ," eq_refl).
Defined.

(** The address list of [ordersDirect] is cleared by a string of
    separators, and [Start] then has nothing to connect to. *)
Example cleared_then_Start :
  nsqds ordersDirect = ["127.0.0.1:4150"]
  ∧ Start () (mkState (Set_ "nsqds" (VString ", ,") ordersDirect) 0%nat [])
    = (Returns (Some errNoAddress),
       mkState (with_client (Some 0%nat) orders) 1%nat (setupCalls orders)).
Proof. split; reflexivity. Qed.


(** * Further properties *)

(** ** The parser *)

Section MoreFields.

Lemma fieldsLoop_app_sep d s2 s1 : ∀ start,
  isSep d = true →
  fieldsLoop isSep start (s1 +:+ String d s2)
  = fieldsLoop isSep start s1 ++ fieldsLoop isSep None s2.
Proof.
  induction s1 as [|r s1 IH]; intros start Hd.
  - rewrite append_nil_l. simpl. rewrite Hd. by destruct start.
  - rewrite append_cons. simpl.
    destruct (isSep r), start; simpl; by rewrite IH.
Qed.

(** X1: cutting a string at one of its separators cuts the parse:
    the addresses of [s1], a separator, [s2] are those of [s1] followed
    by those of [s2]. *)
Theorem split_app_sep d s1 s2 :
  isSep d = true →
  split (VString (s1 +:+ String d s2))
  = ((split (VString s1)).1 ++ (split (VString s2)).1, None).
Proof.
  intros Hd. simpl. unfold FieldsFunc. by rewrite fieldsLoop_app_sep.
Qed.

Lemma fieldsLoop_single f :
  plainAddress f → fieldsLoop isSep None f = [f].
Proof.
  intros [Hne Hfree]. rewrite <- (append_empty_r f) at 1.
  by rewrite fieldsLoop_enter_field.
Qed.

(** X2: addresses that are not empty and hold no comma and no space,
    joined by a comma or by a space, are parsed back as they were. *)
Theorem split_joinWith d fs :
  isSep d = true →
  Forall plainAddress fs →
  split (VString (joinWith d fs)) = (fs, None).
Proof.
  intros Hd Hfs. simpl. f_equal. unfold FieldsFunc.
  induction Hfs as [|f fs Hf Hfs IH]; [done |].
  destruct fs as [|f' fs].
  - simpl. by apply fieldsLoop_single.
  - change (joinWith d (f :: f' :: fs)) with (f +:+ String d (joinWith d (f' :: fs))).
    rewrite fieldsLoop_app_sep, IH by done.
    by rewrite fieldsLoop_single.
Qed.

Lemma fieldsLoop_concatAll s : ∀ start,
  concatAll (fieldsLoop isSep start s) = textOf start +:+ dropSeps s.
Proof.
  induction s as [|r s IH]; intros start.
  - destruct start as [t|]; simpl; [|done]. done.
  - simpl. destruct (isSep r) eqn:Hr.
    + destruct start as [t|]; simpl; rewrite (IH None); simpl; done.
    + destruct start as [t|]; rewrite IH; simpl.
      * by rewrite append_assoc.
      * done.
Qed.

(** X3: parsing a string drops its commas and spaces and nothing else:
    the addresses, written one after the other, are the string without
    its separators. *)
Theorem split_keeps_other_bytes s :
  concatAll (split (VString s)).1 = dropSeps s.
Proof. simpl. unfold FieldsFunc. by rewrite fieldsLoop_concatAll. Qed.

(** X4: a string parses to no address at all exactly when it is made of
    commas and spaces only (the empty string included). *)
Theorem split_nil_iff s :
  (split (VString s)).1 = [] ↔ onlySeps s = true.
Proof.
  simpl. unfold FieldsFunc. split.
  - intros H. by apply fieldsLoop_nil_inv in H as [_ ?].
  - apply fieldsLoop_onlySeps.
Qed.

End MoreFields.

(** ** Option setting *)

Section MoreSet.
Context `{lib : NsqLib}.

Implicit Types (c : Consumer) (st : State) (h : Handler) (e : error).

(** The cases of the [switch] of [Set], for a key that is not known. *)
Ltac key_case option lit :=
  let E := fresh "E" in
  destruct (String.eqb option lit) eqn:E;
  [apply String.eqb_eq in E; subst option | apply String.eqb_neq in E].

Ltac key_cases option :=
  unfold Set_;
  key_case option "topic";
  [|key_case option "channel";
    [|key_case option "concurrency";
      [|key_case option "nsqd";
        [|key_case option "nsqlookupd";
          [|key_case option "nsqds";
            [|key_case option "nsqlookupds"]]]]]].

Lemma not_recognized option :
  option ∉ recognized ↔
  option ≠ "topic" ∧ option ≠ "channel" ∧ option ≠ "concurrency" ∧ option ≠ "nsqd"
  ∧ option ≠ "nsqlookupd" ∧ option ≠ "nsqds" ∧ option ≠ "nsqlookupds".
Proof.
  unfold recognized. rewrite !not_elem_of_cons. split.
  - by intros (? & ? & ? & ? & ? & ? & ? & _).
  - intros (? & ? & ? & ? & ? & ? & ?). repeat split; try done. apply not_elem_of_nil.
Qed.

(** What [Set] leaves alone, field by field. *)
Lemma Set_untouched option value c :
  client (Set_ option value c) = client c
  ∧ log (Set_ option value c) = log c
  ∧ level (Set_ option value c) = level c
  ∧ (option ≠ "topic" → topic (Set_ option value c) = topic c)
  ∧ (option ≠ "channel" → channel (Set_ option value c) = channel c)
  ∧ (option ≠ "concurrency" → concurrency (Set_ option value c) = concurrency c)
  ∧ (option ≠ "nsqd" → option ≠ "nsqds" → nsqds (Set_ option value c) = nsqds c)
  ∧ (option ≠ "nsqlookupd" → option ≠ "nsqlookupds" →
     nsqlookupds (Set_ option value c) = nsqlookupds c)
  ∧ (option ∈ recognized → config (Set_ option value c) = config c).
Proof.
  key_cases option; simpl.
  1-7: destruct value; simpl; repeat split; done.
  destruct (Config_Set _ _ _) as [cfg [e|]]; simpl; repeat split; try done.
  all: intros Hin; exfalso; revert Hin; by apply not_recognized.
Qed.

(** X5: whatever the key and the value, [Set] leaves the client handle,
    the logger and the log level alone; it changes the topic only under
    [topic], the channel only under [channel], the concurrency only under
    [concurrency], the direct addresses only under [nsqd] and [nsqds],
    the discovery addresses only under [nsqlookupd] and [nsqlookupds],
    and the configuration of the library only under a key that is none
    of the seven. *)
Theorem Set_frame option value c :
  client (Set_ option value c) = client c
  ∧ log (Set_ option value c) = log c
  ∧ level (Set_ option value c) = level c
  ∧ (option ≠ "topic" → topic (Set_ option value c) = topic c)
  ∧ (option ≠ "channel" → channel (Set_ option value c) = channel c)
  ∧ (option ≠ "concurrency" → concurrency (Set_ option value c) = concurrency c)
  ∧ (option ≠ "nsqd" → option ≠ "nsqds" → nsqds (Set_ option value c) = nsqds c)
  ∧ (option ≠ "nsqlookupd" → option ≠ "nsqlookupds" →
     nsqlookupds (Set_ option value c) = nsqlookupds c)
  ∧ (option ∈ recognized → config (Set_ option value c) = config c).
Proof. exact (Set_untouched option value c). Qed.

(** X6: under a recognized key, [Set] records an error exactly when
    the value has not the expected shape: a value of the expected shape
    is stored as it is, whatever it is (an empty topic, a concurrency of
    zero), and the deferred error stays as it was. *)
Theorem Set_error_iff_wrong_shape option value c :
  option ∈ recognized →
  (recorded option value c = None ↔ hasExpectedShape option value = true)
  ∧ (hasExpectedShape option value = true → err (Set_ option value c) = err c).
Proof.
  intros Hkey. unfold recorded.
  unfold recognized in Hkey.
  repeat (apply elem_of_cons in Hkey as [->|Hkey]);
    [.. | by apply elem_of_nil in Hkey].
  all: by destruct value.
Qed.


(** X8: one address can be given in three ways. Under [nsqds], the
    sequence of the one string [x] does what [nsqd] does with [x]; the
    string [x] itself does so exactly when [x] is not empty and holds no
    comma and no space. The same holds for [nsqlookupds] and
    [nsqlookupd]. *)
Theorem Set_one_address c x :
  Set_ "nsqds" (VStrings [x]) c = Set_ "nsqd" (VString x) c
  ∧ Set_ "nsqlookupds" (VStrings [x]) c = Set_ "nsqlookupd" (VString x) c
  ∧ (Set_ "nsqds" (VString x) c = Set_ "nsqd" (VString x) c ↔ plainAddress x)
  ∧ (Set_ "nsqlookupds" (VString x) c = Set_ "nsqlookupd" (VString x) c
     ↔ plainAddress x).
Proof.
  assert (FieldsFunc x isSep = [x] ↔ plainAddress x) as Hone.
  { split.
    - intros H. pose proof (FieldsFunc_fields x) as Hall.
      rewrite H in Hall. by inversion Hall.
    - apply fieldsLoop_single. }
  split; [done |]. split; [done |]. unfold Set_. simpl. split.
  - rewrite <- Hone. split; [|by intros ->].
    intros H. by apply (f_equal nsqds) in H.
  - rewrite <- Hone. split; [|by intros ->].
    intros H. by apply (f_equal nsqlookupds) in H.
Qed.

(** [SetLogger] and [Set] write different fields. *)
Lemma SetLogger_Set_comm l lvl option value c :
  SetLogger l lvl (Set_ option value c) = Set_ option value (SetLogger l lvl c).
Proof.
  key_cases option; simpl.
  1-7: by destruct value.
  by destruct (Config_Set _ _ _) as [cfg [e|]].
Qed.

End MoreSet.

(** ** Maps of options *)

Section MoreSetMap.
Context `{lib : NsqLib}.

Implicit Types (c : Consumer) (kvs : list (string * Value)).

Lemma applyAll_app kvs1 kvs2 c :
  applyAll (kvs1 ++ kvs2) c = applyAll kvs2 (applyAll kvs1 c).
Proof. apply foldl_app. Qed.

(** The entries that [SetMap] visits: each entry of the map once. *)
Lemma SetMap_entries (options : gmap string Value) c c' :
  SetMap options c c' →
  ∃ kvs, NoDup kvs.*1
         ∧ (∀ k v, (k, v) ∈ kvs ↔ options !! k = Some v)
         ∧ c' = applyAll kvs c.
Proof.
  intros (kvs & Hperm & ->). exists kvs. split; [|split; [|done]].
  - rewrite Hperm. apply NoDup_fst_map_to_list.
  - intros k v. rewrite Hperm. apply elem_of_map_to_list.
Qed.

(** A field that one key writes, in a list of options with each key
    once: the field ends as that key's entry makes it, whatever the
    order. *)
Section OneKey.
Context {A : Type} (get : Consumer → A) (key : string) (upd : Value → A → A).
Hypothesis get_own : ∀ v c, get (Set_ key v c) = upd v (get c).

Lemma applyAll_get_absent kvs : ∀ c,
  (∀ k v c0, (k, v) ∈ kvs → k ≠ key → get (Set_ k v c0) = get c0) →
  key ∉ kvs.*1 →
  get (applyAll kvs c) = get c.
Proof.
  induction kvs as [|[k v] kvs IH]; intros c Hother Hkey; [done |].
  rewrite applyAll_cons. simpl in *.
  apply not_elem_of_cons in Hkey as [Hne Hkey].
  rewrite IH; [| |done].
  - apply Hother; [left | done].
  - intros k' v' c0 Hin. apply Hother. by right.
Qed.

Lemma applyAll_get_present kvs : ∀ c v,
  NoDup kvs.*1 →
  (∀ k v c0, (k, v) ∈ kvs → k ≠ key → get (Set_ k v c0) = get c0) →
  (key, v) ∈ kvs →
  get (applyAll kvs c) = upd v (get c).
Proof.
  induction kvs as [|[k0 v0] kvs IH]; intros c v Hdup Hother Hin.
  { by apply elem_of_nil in Hin. }
  rewrite applyAll_cons. simpl in *.
  apply NoDup_cons in Hdup as [Hk0 Hdup].
  assert (∀ k v c0, (k, v) ∈ kvs → k ≠ key → get (Set_ k v c0) = get c0) as Hother'.
  { intros k' v' c0 Hin'. apply Hother. by right. }
  apply elem_of_cons in Hin as [[= <- <-]|Hin].
  - rewrite applyAll_get_absent by done. apply get_own.
  - assert (k0 ≠ key) as Hne.
    { intros ->. apply Hk0. apply list_elem_of_fmap. by exists (key, v). }
    rewrite (IH _ v) by done. f_equal. apply Hother; [left | done].
Qed.

Lemma SetMap_get (options : gmap string Value) c c' :
  (∀ k v c0, options !! k = Some v → k ≠ key → get (Set_ k v c0) = get c0) →
  SetMap options c c' →
  get c' = match options !! key with
           | Some v => upd v (get c)
           | None => get c
           end.
Proof.
  intros Hother (kvs & Hdup & Hin & ->)%SetMap_entries.
  assert (∀ k v c0, (k, v) ∈ kvs → k ≠ key → get (Set_ k v c0) = get c0) as Hother'.
  { intros k v c0 Hkv. apply Hother. by apply Hin. }
  destruct (options !! key) as [v|] eqn:Hkey.
  - apply applyAll_get_present; [done | done |]. by apply Hin.
  - apply applyAll_get_absent; [done |].
    intros ((k & v) & -> & Hkv)%list_elem_of_fmap. simpl in Hkey.
    apply Hin in Hkv. congruence.
Qed.

End OneKey.

(** A field that no entry of the map writes is left alone. *)
Lemma SetMap_preserves {A} (get : Consumer → A) (options : gmap string Value) c c' :
  (∀ k v c0, options !! k = Some v → get (Set_ k v c0) = get c0) →
  SetMap options c c' →
  get c' = get c.
Proof.
  intros Hkeep (kvs & _ & Hin & ->)%SetMap_entries.
  assert (∀ k v, (k, v) ∈ kvs → ∀ c0, get (Set_ k v c0) = get c0) as Hkeep'.
  { intros k v Hkv c0. apply Hkeep. by apply Hin. }
  clear Hin Hkeep. revert c.
  induction kvs as [|[k v] kvs IH]; intros c; [done |].
  rewrite applyAll_cons, IH.
  - apply Hkeep'. by left.
  - intros k' v' Hkv. apply Hkeep'. by right.
Qed.

Lemma Consumer_eq c1 c2 :
  client c1 = client c2 → config c1 = config c2 →
  nsqds c1 = nsqds c2 → nsqlookupds c1 = nsqlookupds c2 →
  concurrency c1 = concurrency c2 → channel c1 = channel c2 →
  topic c1 = topic c2 → level c1 = level c2 → log c1 = log c2 →
  err c1 = err c2 →
  c1 = c2.
Proof. destruct c1, c2; simpl; congruence. Qed.

(** The fields with one key each, and the fields with none. *)
Lemma SetMap_scalars (options : gmap string Value) c c' :
  SetMap options c c' →
  topic c' = match options !! "topic" with
             | Some v => stringOr v (topic c)
             | None => topic c
             end
  ∧ channel c' = match options !! "channel" with
                 | Some v => stringOr v (channel c)
                 | None => channel c
                 end
  ∧ concurrency c' = match options !! "concurrency" with
                     | Some v => intOr v (concurrency c)
                     | None => concurrency c
                     end
  ∧ client c' = client c
  ∧ log c' = log c
  ∧ level c' = level c.
Proof.
  intros Hmap. repeat split.
  - apply (SetMap_get topic "topic" stringOr); [by intros [] | | done].
    intros k v c0 _ Hne. by apply Set_untouched.
  - apply (SetMap_get channel "channel" stringOr); [by intros [] | | done].
    intros k v c0 _ Hne. by apply Set_untouched.
  - apply (SetMap_get concurrency "concurrency" intOr); [by intros [] | | done].
    intros k v c0 _ Hne. by apply Set_untouched.
  - apply (SetMap_preserves client options c); [|done].
    intros k v c0 _. apply Set_untouched.
  - apply (SetMap_preserves log options c); [|done].
    intros k v c0 _. apply Set_untouched.
  - apply (SetMap_preserves level options c); [|done].
    intros k v c0 _. apply Set_untouched.
Qed.

(** X9: after [SetMap], in whatever order the entries were visited,
    the topic is the string of the entry [topic] if the map has one (and
    the old topic if it has none, or one that is no string); likewise
    the channel, and the concurrency with the integer of [concurrency];
    the client handle, the logger and the log level are as before. *)
Theorem SetMap_scalar_fields (options : gmap string Value) c c' :
  SetMap options c c' →
  topic c' = match options !! "topic" with
             | Some v => stringOr v (topic c)
             | None => topic c
             end
  ∧ channel c' = match options !! "channel" with
                 | Some v => stringOr v (channel c)
                 | None => channel c
                 end
  ∧ concurrency c' = match options !! "concurrency" with
                     | Some v => intOr v (concurrency c)
                     | None => concurrency c
                     end
  ∧ client c' = client c
  ∧ log c' = log c
  ∧ level c' = level c.
Proof. apply SetMap_scalars. Qed.

Lemma Set_shape_err option value c :
  option ∈ recognized →
  err (Set_ option value c)
  = if hasExpectedShape option value then err c else Some (errExpected option).
Proof.
  intros Hkey. unfold recognized in Hkey.
  repeat (apply elem_of_cons in Hkey as [->|Hkey]);
    [.. | by apply elem_of_nil in Hkey].
  all: by destruct value.
Qed.

(** The two keys of one address list, when the map holds at most one of
    them. *)
Lemma SetMap_two_keys {A} (get : Consumer → A) (k1 k2 : string)
    (upd1 upd2 : Value → A → A) (options : gmap string Value) c c' :
  (∀ v c0, get (Set_ k1 v c0) = upd1 v (get c0)) →
  (∀ v c0, get (Set_ k2 v c0) = upd2 v (get c0)) →
  (∀ k v c0, k ≠ k1 → k ≠ k2 → get (Set_ k v c0) = get c0) →
  ¬ (is_Some (options !! k1) ∧ is_Some (options !! k2)) →
  SetMap options c c' →
  get c' = match options !! k1, options !! k2 with
           | Some v, _ => upd1 v (get c)
           | None, Some v => upd2 v (get c)
           | None, None => get c
           end.
Proof.
  intros H1 H2 Hother Hclash Hmap.
  destruct (options !! k1) as [v1|] eqn:Hk1.
  - assert (options !! k2 = None) as Hk2.
    { destruct (options !! k2) eqn:E; [|done]. destruct Hclash. eauto. }
    rewrite (SetMap_get get k1 upd1 H1 options c c'), Hk1; [done | | done].
    intros k v c0 Hkv Hne. apply Hother; [done |]. intros ->. congruence.
  - rewrite (SetMap_get get k2 upd2 H2 options c c'); [done | | done].
    intros k v c0 Hkv Hne. apply Hother; [|done]. intros ->. congruence.
Qed.

(** X10: when every entry of the map has a recognized key and a value
    of the expected shape, and the map holds at most one of [nsqd] and
    [nsqds] and at most one of [nsqlookupd] and [nsqlookupds], the
    builder that [SetMap] leaves does not depend on the order in which
    the entries are visited. *)
Theorem SetMap_order_independent (options : gmap string Value) c c1 c2 :
  (∀ k v, options !! k = Some v → k ∈ recognized ∧ hasExpectedShape k v = true) →
  ¬ (is_Some (options !! "nsqd") ∧ is_Some (options !! "nsqds")) →
  ¬ (is_Some (options !! "nsqlookupd") ∧ is_Some (options !! "nsqlookupds")) →
  SetMap options c c1 →
  SetMap options c c2 →
  c1 = c2.
Proof.
  intros Hok Hd Hl Hmap1 Hmap2.
  assert (∀ c', SetMap options c c' →
            nsqds c' = match options !! "nsqd", options !! "nsqds" with
                       | Some v, _ => oneAddressOr v (nsqds c)
                       | None, Some v => addressesOr v (nsqds c)
                       | None, None => nsqds c
                       end) as Hnsqds.
  { intros c'. apply SetMap_two_keys; [by intros [] | | | done].
    - intros v c0. unfold Set_, addressesOr. simpl. by destruct (split v) as [l [e|]].
    - intros k v c0 ? ?. by apply Set_untouched. }
  assert (∀ c', SetMap options c c' →
            nsqlookupds c'
            = match options !! "nsqlookupd", options !! "nsqlookupds" with
              | Some v, _ => oneAddressOr v (nsqlookupds c)
              | None, Some v => addressesOr v (nsqlookupds c)
              | None, None => nsqlookupds c
              end) as Hlook.
  { intros c'. apply SetMap_two_keys; [by intros [] | | | done].
    - intros v c0. unfold Set_, addressesOr. simpl. by destruct (split v) as [l [e|]].
    - intros k v c0 ? ?. by apply Set_untouched. }
  assert (∀ c', SetMap options c c' → err c' = err c) as Herr.
  { intros c'. apply SetMap_preserves. intros k v c0 [Hk Hv]%Hok.
    by rewrite Set_shape_err, Hv. }
  assert (∀ c', SetMap options c c' → config c' = config c) as Hcfg.
  { intros c'. apply SetMap_preserves. intros k v c0 [Hk Hv]%Hok.
    by apply Set_untouched. }
  destruct (SetMap_scalars options c c1 Hmap1) as (? & ? & ? & ? & ? & ?).
  destruct (SetMap_scalars options c c2 Hmap2) as (? & ? & ? & ? & ? & ?).
  apply Consumer_eq; try congruence.
  - by rewrite (Hcfg c1), (Hcfg c2).
  - by rewrite (Hnsqds c1), (Hnsqds c2).
  - by rewrite (Hlook c1), (Hlook c2).
  - by rewrite (Herr c1), (Herr c2).
Qed.

(** X11: a map that holds both [nsqd] and [nsqds] (each with a value
    of its expected shape) can leave either list: the address of [nsqd]
    when [nsqds] is visited first, the addresses of [nsqds] when [nsqd]
    is. *)
Theorem SetMap_address_clash c x v l :
  split v = (l, None) →
  ∃ c1 c2,
    SetMap {[ "nsqd" := VString x; "nsqds" := v ]} c c1
    ∧ SetMap {[ "nsqd" := VString x; "nsqds" := v ]} c c2
    ∧ nsqds c1 = [x]
    ∧ nsqds c2 = l.
Proof.
  intros Hv.
  assert (map_to_list ({[ "nsqd" := VString x; "nsqds" := v ]} : gmap string Value)
          ≡ₚ [("nsqd", VString x); ("nsqds", v)]) as Hperm.
  { rewrite map_to_list_insert by done. by rewrite map_to_list_singleton. }
  exists (applyAll [("nsqds", v); ("nsqd", VString x)] c),
         (applyAll [("nsqd", VString x); ("nsqds", v)] c).
  split; [|split; [|split]].
  - eexists. split; [|done]. rewrite Hperm. apply Permutation_swap.
  - eexists. split; [|done]. by rewrite Hperm.
  - done.
  - unfold applyAll, Set_. simpl. by rewrite Hv.
Qed.

Lemma applyAll_err_kept kvs c : is_Some (err c) → is_Some (err (applyAll kvs c)).
Proof.
  intros [e He]. rewrite applyAll_err, He.
  destruct (lastRecorded kvs c); eauto.
Qed.

(** X12: an entry with a recognized key and a value of the wrong shape
    is never lost among the others: whatever the map holds besides and
    whatever the order, [SetMap] leaves a deferred error, and [Start]
    then returns it and does nothing else. *)
Theorem SetMap_wrong_entry (options : gmap string Value) c c' k v :
  options !! k = Some v →
  k ∈ recognized →
  hasExpectedShape k v = false →
  SetMap options c c' →
  ∃ e, err c' = Some e
       ∧ ∀ h w ks, Start h (mkState c' w ks) = (Returns (Some e), mkState c' w ks).
Proof.
  intros Hkv Hk Hv (kvs & _ & Hin & ->)%SetMap_entries.
  apply Hin, list_elem_of_split in Hkv as (kvs1 & kvs2 & ->).
  assert (is_Some (err (applyAll (kvs1 ++ (k, v) :: kvs2) c))) as [e He].
  { rewrite applyAll_app, applyAll_cons. apply applyAll_err_kept. simpl.
    rewrite Set_shape_err, Hv by done. eauto. }
  exists e. split; [done |]. intros h w ks. by apply Start_deferred.
Qed.

(** X13: [SetMap] with the empty map changes nothing, and with a map of
    one entry it is [Set] of that entry. *)
Theorem SetMap_small c c' k v :
  (SetMap ∅ c c' ↔ c' = c)
  ∧ (SetMap {[ k := v ]} c c' ↔ c' = Set_ k v c).
Proof.
  split.
  - unfold SetMap. rewrite map_to_list_empty. split.
    + by intros (kvs & ->%Permutation_nil_r & ->).
    + intros ->. by exists [].
  - unfold SetMap. rewrite map_to_list_singleton. split.
    + by intros (kvs & ->%Permutation_singleton_r & ->).
    + intros ->. by exists [(k, v)].
Qed.

(** ** Before [Start] *)

(** X14: a builder made by [NewConsumer] and changed by [SetLogger],
    [Set] and [SetMap] only has no client: the handle is nil until
    [Start] assigns it. *)
Theorem Reachable_no_client c : Reachable anyOption c → client c = None.
Proof.
  induction 1 as [| |c k v _ IH _|c c' options _ IH _ Hmap]; try done.
  - rewrite <- IH. apply Set_untouched.
  - rewrite <- IH. apply (SetMap_preserves client options c); [|done].
    intros k v c0 _. apply Set_untouched.
Qed.

End MoreSetMap.

(** ** Start-up, phase by phase *)

Section MoreStart.
Context `{lib : NsqLib}.

Implicit Types (c : Consumer) (st : State) (h : Handler) (e : error).

Ltac unfold_start :=
  unfold Start, connect, newConsumer, clientSetLogger, clientAddConcurrentHandlers,
    clientConnectToNSQDs, clientConnectToNSQLookupds, derefClient, setClient,
    getSelf, libCall, mbind, mret, M_bind, M_ret; simpl.

(** [Start] once the client is built, in terms of the two phases. *)
Lemma Start_phases h st cl w :
  err (self st) = None →
  nsq_NewConsumer (topic (self st)) (channel (self st)) (config (self st)) (world st)
    = (inl cl, w) →
  ¬ (nsqds (self st) = [] ∧ nsqlookupds (self st) = []) →
  Start h st
  = let c := self st in
    let d := directPhase c cl (setupWorld c h cl w) in
    match d.1 with
    | Some e =>
        (Returns (Some e),
         mkState (with_client (Some cl) c) d.2 (calls st ++ setupCalls c ++ directCalls c))
    | None =>
        let k := discoveryPhase c cl d.2 in
        (Returns k.1, mkState (with_client (Some cl) c) k.2 (calls st ++ allCalls c))
    end.
Proof.
  intros He Hn Hsome. unfold_start. rewrite He, Hn. simpl.
  unfold directPhase, discoveryPhase, allCalls, directCalls, discoveryCalls, setupWorld.
  destruct (nsqds (self st)) as [|a l] eqn:Hd; simpl;
    destruct (nsqlookupds (self st)) as [|a' l'] eqn:Hl; simpl.
  - by destruct Hsome.
  - rewrite <- !(assoc_L (++)). simpl.
    by destruct (Client_ConnectToNSQLookupds _ _ _) as [[e|] w'].
  - rewrite <- !(assoc_L (++)). simpl.
    by destruct (Client_ConnectToNSQDs _ _ _) as [[e|] w'].
  - rewrite <- !(assoc_L (++)). simpl.
    destruct (Client_ConnectToNSQDs _ _ _) as [[e|] w']; simpl; [done |].
    rewrite <- !(assoc_L (++)). simpl.
    by destruct (Client_ConnectToNSQLookupds _ _ _) as [[e|] w''].
Qed.

(** X15: when the library refuses to build the client, [Start] returns
    the error of the library as it is; the builder is as before (the
    handle is not written), and the construction is the only call made:
    no logger is attached, no handler registered, nothing dialled. *)
Theorem Start_construction_failure h st e w :
  err (self st) = None →
  nsq_NewConsumer (topic (self st)) (channel (self st)) (config (self st)) (world st)
    = (inr e, w) →
  ∃ st', Start h st = (Returns (Some e), st')
    ∧ self st' = self st
    ∧ world st' = w
    ∧ newCalls st st' = [CallNewConsumer (topic (self st)) (channel (self st))].
Proof.
  intros He Hn. rewrite (Start_construct_failed h st e w He Hn).
  eexists. split; [done |]. simpl. repeat split.
  by apply newCalls_app.
Qed.

(** X16: when the discovery connection fails, after a direct connection
    that succeeded or was skipped for want of addresses, [Start] returns
    the error of the discovery connection; the client stays in the
    handle and what was dialled directly stays dialled: the calls are
    all those of a complete start, and nothing is undone. *)
Theorem Start_discovery_failure h st cl w w1 e w2 :
  err (self st) = None →
  nsq_NewConsumer (topic (self st)) (channel (self st)) (config (self st)) (world st)
    = (inl cl, w) →
  nsqlookupds (self st) ≠ [] →
  directPhase (self st) cl (setupWorld (self st) h cl w) = (None, w1) →
  Client_ConnectToNSQLookupds cl (nsqlookupds (self st)) w1 = (Some e, w2) →
  Start h st
  = (Returns (Some e),
     mkState (with_client (Some cl) (self st)) w2 (calls st ++ allCalls (self st))).
Proof.
  intros He Hn Hl Hd Hk. rewrite (Start_phases h st cl w He Hn) by (by intros [_ ?]).
  simpl. rewrite Hd. simpl. unfold discoveryPhase.
  destruct (nsqlookupds (self st)) as [|a l]; [done |]. by rewrite Hk.
Qed.

(** X17: [Start] returns no error exactly when there is no deferred
    error, the client can be built, at least one of the two address
    lists is not empty, and each connection that is not skipped
    succeeds, the discovery one in the world the direct one leaves. *)
Theorem Start_succeeds_iff h st :
  (Start h st).1 = Returns None ↔
  err (self st) = None
  ∧ ∃ cl w,
      nsq_NewConsumer (topic (self st)) (channel (self st)) (config (self st)) (world st)
        = (inl cl, w)
      ∧ ¬ (nsqds (self st) = [] ∧ nsqlookupds (self st) = [])
      ∧ (directPhase (self st) cl (setupWorld (self st) h cl w)).1 = None
      ∧ (discoveryPhase (self st) cl
           (directPhase (self st) cl (setupWorld (self st) h cl w)).2).1 = None.
Proof.
  destruct (err (self st)) as [e|] eqn:He.
  { rewrite (Start_deferred h st e He). simpl. split; [done | by intros [? _]]. }
  destruct (nsq_NewConsumer (topic (self st)) (channel (self st)) (config (self st))
              (world st)) as [[cl|e] w] eqn:Hn.
  2: { rewrite (Start_construct_failed h st e w He Hn). simpl.
       split; [done | by intros (_ & ? & ? & ? & _)]. }
  destruct (decide (nsqds (self st) = [] ∧ nsqlookupds (self st) = [])) as [[H1 H2]|Hsome].
  { rewrite (Start_connect h st cl w He Hn), connect_no_address by done. simpl.
    split; [done |]. intros (_ & ? & ? & _ & Hne & _). by destruct Hne. }
  rewrite (Start_phases h st cl w He Hn Hsome). simpl.
  destruct (directPhase _ _ _) as [[e|] w1] eqn:Hd; simpl.
  - split; [done |]. intros (_ & cl' & w' & [= <- <-] & _ & Hd' & _).
    rewrite Hd in Hd'. done.
  - split.
    + intros Hk. split; [done |]. exists cl, w. rewrite Hd. simpl.
      repeat split; try done. by destruct (discoveryPhase _ _ _) as [[?|] ?]; simplify_eq/=.
    + intros (_ & cl' & w' & [= <- <-] & _ & _ & Hk). rewrite Hd in Hk. simpl in Hk.
      by rewrite Hk.
Qed.

(** X18: whatever happens, the calls that [Start] makes into the
    library are a prefix of: construction, logger, handlers, direct
    connection (if there are direct addresses), discovery connection (if
    there are discovery addresses); they are all of them when [Start]
    returns no error. So no call is made twice or out of this order, and
    nothing is dialled before the handlers are registered. *)
Theorem Start_calls_in_order h st :
  ∃ ks, calls (Start h st).2 = calls st ++ ks
        ∧ ks `prefix_of` allCalls (self st)
        ∧ ((Start h st).1 = Returns None → ks = allCalls (self st)).
Proof.
  destruct (err (self st)) as [e|] eqn:He.
  { rewrite (Start_deferred h st e He). simpl. exists [].
    rewrite app_nil_r. repeat split; [apply prefix_nil | done]. }
  destruct (nsq_NewConsumer (topic (self st)) (channel (self st)) (config (self st))
              (world st)) as [[cl|e] w] eqn:Hn.
  2: { rewrite (Start_construct_failed h st e w He Hn). simpl.
       eexists. split; [done |]. split; [|done].
       unfold allCalls, setupCalls. simpl. apply prefix_cons, prefix_nil. }
  destruct (decide (nsqds (self st) = [] ∧ nsqlookupds (self st) = [])) as [[H1 H2]|Hsome].
  { rewrite (Start_connect h st cl w He Hn), connect_no_address by done. simpl.
    eexists. split; [done |]. split; [|done]. by apply prefix_app_r. }
  rewrite (Start_phases h st cl w He Hn Hsome). simpl.
  destruct (directPhase _ _ _) as [[e|] w1] eqn:Hd; simpl.
  - eexists. split; [done |]. split; [|done].
    exists (discoveryCalls (self st)). unfold allCalls, setupCalls. simpl.
    by rewrite <- ?(assoc_L (++)).
  - eexists. split; [done |]. split; done.
Qed.

Lemma runOp_after_error st op :
  is_Some (err (self st)) →
  is_Some (err (self (runOp st op)))
  ∧ client (self (runOp st op)) = client (self st)
  ∧ world (runOp st op) = world st
  ∧ calls (runOp st op) = calls st.
Proof.
  intros [e He]. destruct op as [l lvl|key value|h]; simpl.
  - rewrite He. eauto.
  - rewrite Set_err, He. split; [|split; [apply Set_untouched | done]].
    destruct (recorded key value (self st)); eauto.
  - rewrite (Start_deferred h st e He). simpl. rewrite He. eauto.
Qed.

(** The configuration of the library is reached by [Set] only, and
    only under a key that is none of the seven. *)
Lemma runOps_config ops : ∀ st,
  is_Some (err (self st)) →
  (∀ key value, OpSet key value ∈ ops → key ∈ recognized) →
  config (self (runOps ops st)) = config (self st).
Proof.
  unfold runOps.
  induction ops as [|op ops IH]; intros st Hsome Hkeys; [done |]. simpl.
  destruct (runOp_after_error st op Hsome) as (Hs & _).
  rewrite IH; [|done |].
  - destruct op as [l lvl|key value|h]; simpl; [done | |].
    + apply Set_untouched. apply (Hkeys key value). by left.
    + destruct Hsome as [e He]. by rewrite (Start_deferred h st e He).
  - intros key value Hin. apply (Hkeys key value). by right.
Qed.

(** X19: a builder with a deferred error cannot be started any more:
    after any further calls of [SetLogger], [Set] and [Start], in any
    number and order, [Start] still returns a deferred error at once;
    the client handle is never written, no client is built and none of
    the calls on a client is made (the call log and the world of the
    library stay as they were). The one call into the library that can
    still happen is [config.Set], made by [Set] under a key that is none
    of the seven: when every key given to [Set] is recognized, the
    configuration stays as it was too. *)
Theorem Start_never_after_error st e ops h :
  err (self st) = Some e →
  ∃ e', Start h (runOps ops st) = (Returns (Some e'), runOps ops st)
        ∧ client (self (runOps ops st)) = client (self st)
        ∧ world (runOps ops st) = world st
        ∧ calls (runOps ops st) = calls st
        ∧ ((∀ key value, OpSet key value ∈ ops → key ∈ recognized) →
           config (self (runOps ops st)) = config (self st)).
Proof.
  intros He.
  assert (is_Some (err (self st))) as Hsome by eauto.
  assert (is_Some (err (self (runOps ops st)))
          ∧ client (self (runOps ops st)) = client (self st)
          ∧ world (runOps ops st) = world st
          ∧ calls (runOps ops st) = calls st) as ([e' He'] & ? & ? & ?).
  { clear He. unfold runOps. revert st Hsome.
    induction ops as [|op ops IH]; intros st Hsome; [done |]. simpl.
    destruct (runOp_after_error st op Hsome) as (Hs & Hc & Hw & Hk).
    destruct (IH (runOp st op) Hs) as (? & Hc' & Hw' & Hk').
    split; [done |]. by rewrite Hc', Hw', Hk'. }
  exists e'. split; [by apply Start_deferred |].
  repeat split; try done. by apply runOps_config.
Qed.

(** The state that [Start] leaves once the client is built. *)
Lemma Start_constructed h st cl w :
  err (self st) = None →
  nsq_NewConsumer (topic (self st)) (channel (self st)) (config (self st)) (world st)
    = (inl cl, w) →
  ∃ w' ks,
    (Start h st).2
    = mkState (with_client (Some cl) (self st)) w'
        (calls st ++ CallNewConsumer (topic (self st)) (channel (self st)) :: ks).
Proof.
  intros He Hn.
  destruct (decide (nsqds (self st) = [] ∧ nsqlookupds (self st) = [])) as [[H1 H2]|Hsome].
  { rewrite (Start_connect h st cl w He Hn), connect_no_address by done. simpl.
    by eexists _, _. }
  rewrite (Start_phases h st cl w He Hn Hsome). simpl.
  destruct (directPhase _ _ _) as [[e|] w1]; simpl; by eexists _, _.
Qed.

(** X20: nothing keeps [Start] from being called again: a second call
    builds a second client and puts it in the handle in place of the
    first (here when both constructions succeed), so the library is
    asked twice for a client. *)
Theorem Start_again h h' st cl1 w1 cl2 w2 :
  err (self st) = None →
  nsq_NewConsumer (topic (self st)) (channel (self st)) (config (self st)) (world st)
    = (inl cl1, w1) →
  nsq_NewConsumer (topic (self st)) (channel (self st)) (config (self st))
    (world (Start h st).2) = (inl cl2, w2) →
  client (self (Start h st).2) = Some cl1
  ∧ client (self (Start h' (Start h st).2).2) = Some cl2
  ∧ ∃ ks1 ks2,
      calls (Start h' (Start h st).2).2
      = calls st
        ++ CallNewConsumer (topic (self st)) (channel (self st)) :: ks1
        ++ CallNewConsumer (topic (self st)) (channel (self st)) :: ks2.
Proof.
  intros He Hn1 Hn2.
  destruct (Start_constructed h st cl1 w1 He Hn1) as (w1' & ks1 & H1).
  rewrite H1 in Hn2 |- *. simpl in Hn2.
  destruct (Start_constructed h' (mkState (with_client (Some cl1) (self st)) w1'
              (calls st ++ CallNewConsumer (topic (self st)) (channel (self st)) :: ks1))
              cl2 w2 He Hn2) as (w2' & ks2 & H2).
  rewrite H2. simpl. repeat split.
  exists ks1, ks2. by rewrite <- (assoc_L (++)).
Qed.

(** X21: [nsqd] stores its string as the one address, whatever the
    string, the empty one too: the list is not empty, so [Start] (with no
    deferred error and the client built) does not miss an address but
    dials that string right after the set-up calls. *)
Theorem Set_nsqd_is_dialled c s h w ks cl w' :
  err c = None →
  nsq_NewConsumer (topic c) (channel c) (config c) w = (inl cl, w') →
  nsqds (Set_ "nsqd" (VString s) c) = [s]
  ∧ ∃ ks',
      newCalls (mkState (Set_ "nsqd" (VString s) c) w ks)
        (Start h (mkState (Set_ "nsqd" (VString s) c) w ks)).2
      = setupCalls c ++ CallConnectToNSQDs [s] :: ks'.
Proof.
  intros He Hn. split; [done |].
  rewrite (Start_phases h _ cl w') by (done || by intros [? _]).
  simpl. unfold directPhase. simpl.
  destruct (Client_ConnectToNSQDs _ _ _) as [[e|] w1]; simpl.
  - exists []. by apply newCalls_app.
  - exists (discoveryCalls c). by apply newCalls_app.
Qed.

Lemma applyAll_SetLogger kvs : ∀ l lvl c,
  applyAll kvs (SetLogger l lvl c) = SetLogger l lvl (applyAll kvs c).
Proof.
  induction kvs as [|[k v] kvs IH]; intros l lvl c; [done |].
  by rewrite !applyAll_cons, <- IH, SetLogger_Set_comm.
Qed.

(** X22: the logger and the level of [SetLogger] are not touched by
    any [Set] that follows: after [SetLogger] and any calls of [Set] that
    leave no error, the builder still holds that logger and that level,
    and when [Start] builds the client, the call it makes right after
    the construction is [SetLogger] at that level. *)
Theorem SetLogger_reaches_client l lvl kvs c h w ks cl w' :
  err (applyAll kvs c) = None →
  nsq_NewConsumer (topic (applyAll kvs c)) (channel (applyAll kvs c))
    (config (applyAll kvs c)) w = (inl cl, w') →
  log (applyAll kvs (SetLogger l lvl c)) = l
  ∧ level (applyAll kvs (SetLogger l lvl c)) = lvl
  ∧ ∃ w'' ks',
      (Start h (mkState (applyAll kvs (SetLogger l lvl c)) w ks)).2
      = mkState (with_client (Some cl) (applyAll kvs (SetLogger l lvl c))) w''
          (ks ++ CallNewConsumer (topic (applyAll kvs c)) (channel (applyAll kvs c))
              :: CallSetLogger lvl :: ks').
Proof.
  intros He Hn. rewrite applyAll_SetLogger. split; [done |]. split; [done |].
  set (c' := applyAll kvs c) in *.
  destruct (decide (nsqds c' = [] ∧ nsqlookupds c' = [])) as [[H1 H2]|Hsome].
  { rewrite (Start_connect h _ cl w') by done.
    rewrite connect_no_address by done. simpl. by eexists _, _. }
  rewrite (Start_phases h _ cl w') by done. simpl.
  destruct (directPhase _ _ _) as [[e|] w1]; simpl; by eexists _, _.
Qed.

(** X23: a builder made for a topic and a channel and given, by one
    [SetMap], the address of one broker and a concurrency [n], starts as
    follows when the client can be built: the client is built for that
    topic and channel, gets the default logger at level info and the
    handler with [n] workers, and is connected to that one address;
    no discovery connection is made, and [Start] returns what the direct
    connection returns. *)
Theorem Start_one_broker topic channel a n c' h w cl w1 :
  SetMap {[ "nsqd" := VString a; "concurrency" := VInt n ]}
    (NewConsumer topic channel) c' →
  nsq_NewConsumer topic channel NewConfig w = (inl cl, w1) →
  let w2 := Client_AddConcurrentHandlers cl h n
              (Client_SetLogger cl stderrLogger LogLevelInfo w1) in
  Start h (mkState c' w [])
  = (Returns (Client_ConnectToNSQDs cl [a] w2).1,
     mkState (with_client (Some cl) c') (Client_ConnectToNSQDs cl [a] w2).2
       [CallNewConsumer topic channel; CallSetLogger LogLevelInfo;
        CallAddConcurrentHandlers n; CallConnectToNSQDs [a]]).
Proof.
  intros (kvs & Hperm & ->) Hn w2.
  assert (applyAll kvs (NewConsumer topic channel)
          = with_concurrency n (with_nsqds [a] (NewConsumer topic channel))) as ->.
  { rewrite map_to_list_insert, map_to_list_singleton in Hperm by done.
    symmetry in Hperm. apply Permutation_length_2_inv in Hperm as [-> | ->]; done. }
  rewrite (Start_phases h _ cl w1) by (done || by intros [? _]).
  simpl. unfold directPhase, setupWorld. simpl. fold w2.
  by destruct (Client_ConnectToNSQDs cl [a] w2) as [[e|] w3].
Qed.

End MoreStart.

(** ** Runs of the further properties on the stand-in library *)

Lemma split_app_sep_witness :
  isSep " " = true
  ∧ split (VString ("a:4150,b:4150" +:+ String " " "c:4150"))
    = ((split (VString "a:4150,b:4150")).1 ++ (split (VString "c:4150")).1, None).
Proof.
  split; [reflexivity |].
  exact (split_app_sep " " "a:4150,b:4150" "c:4150" eq_refl).
Defined.

Lemma two_plain_addresses : Forall plainAddress ["a:4150"; "b:4150"].
Proof. repeat constructor. Defined.

Lemma split_joinWith_witness :
  isSep "," = true
  ∧ Forall plainAddress ["a:4150"; "b:4150"]
  ∧ split (VString (joinWith "," ["a:4150"; "b:4150"])) = (["a:4150"; "b:4150"], None).
Proof.
  split; [reflexivity |]. split; [exact two_plain_addresses |].
  exact (split_joinWith "," ["a:4150"; "b:4150"] eq_refl two_plain_addresses).
Defined.

Lemma channel_recognized : "channel" ∈ recognized.
Proof. unfold recognized. set_solver. Defined.

Lemma Set_error_iff_wrong_shape_witness :
  "channel" ∈ recognized
  ∧ (recorded "channel" (VString "") orders = None
     ↔ hasExpectedShape "channel" (VString "") = true)
  ∧ (hasExpectedShape "channel" (VString "") = true →
     err (Set_ "channel" (VString "") orders) = err orders).
Proof.
  split; [exact channel_recognized |].
  exact (Set_error_iff_wrong_shape "channel" (VString "") orders channel_recognized).
Defined.



(** A key in another case is no key of the builder: the topic stays,
    and the library's refusal becomes the deferred error. *)
Example Topic_is_forwarded :
  topic (Set_ "Topic" (VString "invoices") orders) = "orders"
  ∧ err (Set_ "Topic" (VString "invoices") orders) = Some "invalid option Topic".
Proof. split; reflexivity. Qed.

Lemma SetMap_twoOptions :
  SetMap twoOptions orders (applyAll (map_to_list twoOptions) orders).
Proof. by eexists. Defined.

Lemma SetMap_scalar_fields_witness :
  let c' := applyAll (map_to_list twoOptions) orders in
  SetMap twoOptions orders c'
  ∧ topic c' = match twoOptions !! "topic" with
               | Some v => stringOr v (topic orders)
               | None => topic orders
               end
  ∧ channel c' = match twoOptions !! "channel" with
                 | Some v => stringOr v (channel orders)
                 | None => channel orders
                 end
  ∧ concurrency c' = match twoOptions !! "concurrency" with
                     | Some v => intOr v (concurrency orders)
                     | None => concurrency orders
                     end
  ∧ client c' = client orders
  ∧ log c' = log orders
  ∧ level c' = level orders.
Proof.
  split; [exact SetMap_twoOptions |].
  exact (SetMap_scalar_fields twoOptions orders _ SetMap_twoOptions).
Defined.

Lemma twoOptions_well_typed :
  ∀ k v, twoOptions !! k = Some v → k ∈ recognized ∧ hasExpectedShape k v = true.
Proof.
  intros k v. unfold twoOptions.
  intros [[<- <-]|[_ [<- <-]%lookup_singleton_Some]]%lookup_insert_Some.
  - split; [unfold recognized; set_solver | done].
  - split; [unfold recognized; set_solver | done].
Defined.

Lemma twoOptions_no_clash :
  ¬ (is_Some (twoOptions !! "nsqd") ∧ is_Some (twoOptions !! "nsqds"))
  ∧ ¬ (is_Some (twoOptions !! "nsqlookupd") ∧ is_Some (twoOptions !! "nsqlookupds")).
Proof.
  unfold twoOptions. split.
  - intros [_ [v Hv]]. by rewrite lookup_insert_ne, lookup_singleton_ne in Hv.
  - intros [[v Hv] _]. by rewrite lookup_insert_ne, lookup_singleton_ne in Hv.
Defined.

Lemma twoOptions_entries :
  map_to_list twoOptions
  ≡ₚ [("nsqd", VString "127.0.0.1:4150"); ("concurrency", VInt 4)].
Proof.
  unfold twoOptions. rewrite map_to_list_insert by done.
  by rewrite map_to_list_singleton.
Qed.

Lemma SetMap_twoOptions_forth :
  SetMap twoOptions orders
    (applyAll [("nsqd", VString "127.0.0.1:4150"); ("concurrency", VInt 4)] orders).
Proof. eexists. split; [|done]. by rewrite twoOptions_entries. Qed.

Lemma SetMap_twoOptions_back :
  SetMap twoOptions orders
    (applyAll [("concurrency", VInt 4); ("nsqd", VString "127.0.0.1:4150")] orders).
Proof.
  eexists. split; [|done]. rewrite twoOptions_entries. apply Permutation_swap.
Qed.

Lemma SetMap_order_independent_witness :
  let c1 := applyAll [("nsqd", VString "127.0.0.1:4150"); ("concurrency", VInt 4)] orders in
  let c2 := applyAll [("concurrency", VInt 4); ("nsqd", VString "127.0.0.1:4150")] orders in
  (∀ k v, twoOptions !! k = Some v → k ∈ recognized ∧ hasExpectedShape k v = true)
  ∧ ¬ (is_Some (twoOptions !! "nsqd") ∧ is_Some (twoOptions !! "nsqds"))
  ∧ ¬ (is_Some (twoOptions !! "nsqlookupd") ∧ is_Some (twoOptions !! "nsqlookupds"))
  ∧ SetMap twoOptions orders c1
  ∧ SetMap twoOptions orders c2
  ∧ c1 = c2.
Proof.
  split; [exact twoOptions_well_typed |].
  split; [exact (proj1 twoOptions_no_clash) |].
  split; [exact (proj2 twoOptions_no_clash) |].
  split; [exact SetMap_twoOptions_forth |]. split; [exact SetMap_twoOptions_back |].
  exact (SetMap_order_independent twoOptions orders _ _ twoOptions_well_typed
           (proj1 twoOptions_no_clash) (proj2 twoOptions_no_clash)
           SetMap_twoOptions_forth SetMap_twoOptions_back).
Defined.

Lemma SetMap_address_clash_witness :
  split (VString "b:4150 c:4150") = (["b:4150"; "c:4150"], None)
  ∧ ∃ c1 c2,
      SetMap {[ "nsqd" := VString "a:4150"; "nsqds" := VString "b:4150 c:4150" ]} orders c1
      ∧ SetMap {[ "nsqd" := VString "a:4150"; "nsqds" := VString "b:4150 c:4150" ]} orders c2
      ∧ nsqds c1 = ["a:4150"]
      ∧ nsqds c2 = ["b:4150"; "c:4150"].
Proof.
  split; [reflexivity |].
  exact (SetMap_address_clash orders "a:4150" (VString "b:4150 c:4150")
           ["b:4150"; "c:4150"] eq_refl).
Defined.

Lemma SetMap_badOptions :
  SetMap badOptions orders (applyAll (map_to_list badOptions) orders).
Proof. by eexists. Defined.

Lemma topic_recognized : "topic" ∈ recognized.
Proof. unfold recognized. apply list_elem_of_here. Defined.

Lemma SetMap_wrong_entry_witness :
  let c' := applyAll (map_to_list badOptions) orders in
  badOptions !! "topic" = Some (VInt 7)
  ∧ "topic" ∈ recognized
  ∧ hasExpectedShape "topic" (VInt 7) = false
  ∧ SetMap badOptions orders c'
  ∧ ∃ e, err c' = Some e
         ∧ ∀ h w ks, Start h (mkState c' w ks) = (Returns (Some e), mkState c' w ks).
Proof.
  split; [reflexivity |]. split; [exact topic_recognized |].
  split; [reflexivity |]. split; [exact SetMap_badOptions |].
  exact (SetMap_wrong_entry badOptions orders _ "topic" (VInt 7)
           eq_refl topic_recognized eq_refl SetMap_badOptions).
Defined.

Lemma reachable_twoOptions :
  Reachable anyOption
    (applyAll (map_to_list twoOptions) (SetLogger "syslog" LogLevelDebug orders)).
Proof.
  eapply reach_SetMap; [| | by eexists].
  - apply reach_SetLogger, reach_NewConsumer.
  - by intros k v _.
Defined.

Lemma Reachable_no_client_witness :
  let c := applyAll (map_to_list twoOptions) (SetLogger "syslog" LogLevelDebug orders) in
  Reachable anyOption c ∧ client c = None.
Proof.
  split; [exact reachable_twoOptions |].
  exact (Reachable_no_client _ reachable_twoOptions).
Defined.

Lemma Start_construction_failure_witness :
  let st := mkState noTopic 0%nat [] in
  err (self st) = None
  ∧ nsq_NewConsumer (topic (self st)) (channel (self st)) (config (self st)) (world st)
    = (inr "invalid topic or channel name", 0%nat)
  ∧ ∃ st', Start () st = (Returns (Some "invalid topic or channel name"), st')
      ∧ self st' = self st
      ∧ world st' = 0%nat
      ∧ newCalls st st' = [CallNewConsumer (topic (self st)) (channel (self st))].
Proof.
  split; [reflexivity |]. split; [reflexivity |].
  exact (Start_construction_failure () (mkState noTopic 0%nat [])
           "invalid topic or channel name" 0%nat eq_refl eq_refl).
Defined.

Lemma ordersLookupDown_discovery : nsqlookupds ordersLookupDown ≠ [].
Proof. by vm_compute. Defined.

Lemma Start_discovery_failure_witness :
  let st := mkState ordersLookupDown 0%nat [] in
  let e := "dial tcp down:4161: connection refused" in
  err (self st) = None
  ∧ nsq_NewConsumer (topic (self st)) (channel (self st)) (config (self st)) (world st)
    = (inl 0%nat, 1%nat)
  ∧ nsqlookupds (self st) ≠ []
  ∧ directPhase (self st) 0%nat (setupWorld (self st) () 0%nat 1%nat) = (None, 1%nat)
  ∧ Client_ConnectToNSQLookupds 0%nat (nsqlookupds (self st)) 1%nat = (Some e, 1%nat)
  ∧ Start () st
    = (Returns (Some e),
       mkState (with_client (Some 0%nat) (self st)) 1%nat (calls st ++ allCalls (self st))).
Proof.
  split; [reflexivity |]. split; [reflexivity |].
  split; [exact ordersLookupDown_discovery |].
  split; [reflexivity |]. split; [reflexivity |].
  exact (Start_discovery_failure () (mkState ordersLookupDown 0%nat []) 0%nat 1%nat 1%nat
           "dial tcp down:4161: connection refused" 1%nat
           eq_refl eq_refl ordersLookupDown_discovery eq_refl eq_refl).
Defined.

(** The calls of that start: the broker was dialled before the
    discovery service refused. *)
Example discovery_failure_calls :
  allCalls ordersLookupDown
  = [CallNewConsumer "orders" "workers"; CallSetLogger LogLevelInfo;
     CallAddConcurrentHandlers 1; CallConnectToNSQDs ["127.0.0.1:4150"];
     CallConnectToNSQLookupds ["127.0.0.1:4161"; "down:4161"]].
Proof. reflexivity. Qed.

Lemma Start_never_after_error_witness :
  let st := mkState (Set_ "concurrency" (VString "four") ordersDirect) 0%nat [] in
  let ops := [OpSet "concurrency" (VInt 4); OpStart (); OpSetLogger "syslog" LogLevelError;
              OpSet "topic" (VInt 7)] in
  err (self st) = Some (quoted "concurrency" +:+ ": expected integer")
  ∧ ∃ e', Start () (runOps ops st) = (Returns (Some e'), runOps ops st)
          ∧ client (self (runOps ops st)) = client (self st)
          ∧ world (runOps ops st) = world st
          ∧ calls (runOps ops st) = calls st
          ∧ ((∀ key value, OpSet key value ∈ ops → key ∈ recognized) →
             config (self (runOps ops st)) = config (self st)).
Proof.
  split; [reflexivity |].
  exact (Start_never_after_error
           (mkState (Set_ "concurrency" (VString "four") ordersDirect) 0%nat [])
           (quoted "concurrency" +:+ ": expected integer")
           [OpSet "concurrency" (VInt 4); OpStart (); OpSetLogger "syslog" LogLevelError;
            OpSet "topic" (VInt 7)]
           () eq_refl).
Defined.

(** The keys of that run are recognized ones, so its configuration
    stays too. *)
Lemma recognized_run :
  ∀ key value,
    OpSet key value
    ∈ [OpSet (lib := Fake.lib) "concurrency" (VInt 4); OpStart ();
       OpSetLogger "syslog" LogLevelError; OpSet "topic" (VInt 7)] →
    key ∈ recognized.
Proof.
  intros key value Hin. unfold recognized.
  repeat (apply elem_of_cons in Hin as [Heq|Hin]; [try done |]).
  - injection Heq as -> _. do 2 right. by left.
  - injection Heq as -> _. by left.
  - by apply elem_of_nil in Hin.
Qed.

(** With one more call of [Set], under a key of the library, that call
    does reach [config.Set]: the configuration changes, the call log does
    not. *)
Example config_still_set :
  let st := mkState (Set_ "concurrency" (VString "four") ordersDirect) 0%nat [] in
  let ops := [OpSet "concurrency" (VInt 4); OpStart (); OpSetLogger "syslog" LogLevelError;
              OpSet "topic" (VInt 7); OpSet "max_in_flight" (VInt 8)] in
  config (self st) = []
  ∧ config (self (runOps ops st)) = [("max_in_flight", VInt 8)]
  ∧ calls (runOps ops st) = []
  ∧ (Start () (runOps ops st)).1 = Returns (Some (quoted "topic" +:+ ": expected string")).
Proof. repeat split. Qed.

Lemma Start_again_witness :
  let st := mkState ordersDirect 0%nat [] in
  err (self st) = None
  ∧ nsq_NewConsumer (topic (self st)) (channel (self st)) (config (self st)) (world st)
    = (inl 0%nat, 1%nat)
  ∧ nsq_NewConsumer (topic (self st)) (channel (self st)) (config (self st))
      (world (Start () st).2) = (inl 1%nat, 2%nat)
  ∧ client (self (Start () st).2) = Some 0%nat
  ∧ client (self (Start () (Start () st).2).2) = Some 1%nat
  ∧ ∃ ks1 ks2,
      calls (Start () (Start () st).2).2
      = calls st
        ++ CallNewConsumer (topic (self st)) (channel (self st)) :: ks1
        ++ CallNewConsumer (topic (self st)) (channel (self st)) :: ks2.
Proof.
  split; [reflexivity |]. split; [reflexivity |]. split; [reflexivity |].
  exact (Start_again () () (mkState ordersDirect 0%nat []) 0%nat 1%nat 1%nat 2%nat
           eq_refl eq_refl eq_refl).
Defined.

Lemma Set_nsqd_is_dialled_witness :
  err orders = None
  ∧ nsq_NewConsumer (topic orders) (channel orders) (config orders) 0%nat
    = (inl 0%nat, 1%nat)
  ∧ nsqds (Set_ "nsqd" (VString "") orders) = [""]
  ∧ ∃ ks',
      newCalls (mkState (Set_ "nsqd" (VString "") orders) 0%nat [])
        (Start () (mkState (Set_ "nsqd" (VString "") orders) 0%nat [])).2
      = setupCalls orders ++ CallConnectToNSQDs [""] :: ks'.
Proof.
  split; [reflexivity |]. split; [reflexivity |].
  exact (Set_nsqd_is_dialled orders "" () 0%nat [] 0%nat 1%nat eq_refl eq_refl).
Defined.

Lemma SetLogger_reaches_client_witness :
  let kvs := [("nsqd", VString "127.0.0.1:4150"); ("channel", VString "audit")] in
  err (applyAll kvs orders) = None
  ∧ nsq_NewConsumer (topic (applyAll kvs orders)) (channel (applyAll kvs orders))
      (config (applyAll kvs orders)) 0%nat = (inl 0%nat, 1%nat)
  ∧ log (applyAll kvs (SetLogger "syslog" LogLevelDebug orders)) = "syslog"
  ∧ level (applyAll kvs (SetLogger "syslog" LogLevelDebug orders)) = LogLevelDebug
  ∧ ∃ w'' ks',
      (Start () (mkState (applyAll kvs (SetLogger "syslog" LogLevelDebug orders)) 0%nat [])).2
      = mkState (with_client (Some 0%nat)
                   (applyAll kvs (SetLogger "syslog" LogLevelDebug orders))) w''
          ([] ++ CallNewConsumer (topic (applyAll kvs orders)) (channel (applyAll kvs orders))
              :: CallSetLogger LogLevelDebug :: ks').
Proof.
  split; [reflexivity |]. split; [reflexivity |].
  exact (SetLogger_reaches_client "syslog" LogLevelDebug
           [("nsqd", VString "127.0.0.1:4150"); ("channel", VString "audit")]
           orders () 0%nat [] 0%nat 1%nat eq_refl eq_refl).
Defined.

Lemma SetMap_broker_options :
  SetMap {[ "nsqd" := VString "127.0.0.1:4150"; "concurrency" := VInt 4 ]}
    (NewConsumer "orders" "workers")
    (applyAll [("nsqd", VString "127.0.0.1:4150"); ("concurrency", VInt 4)] orders).
Proof. exact SetMap_twoOptions_forth. Qed.

Lemma Start_one_broker_witness :
  let c' := applyAll [("nsqd", VString "127.0.0.1:4150"); ("concurrency", VInt 4)] orders in
  SetMap {[ "nsqd" := VString "127.0.0.1:4150"; "concurrency" := VInt 4 ]}
    (NewConsumer "orders" "workers") c'
  ∧ nsq_NewConsumer "orders" "workers" NewConfig 0%nat = (inl 0%nat, 1%nat)
  ∧ Start () (mkState c' 0%nat [])
    = (Returns (Client_ConnectToNSQDs 0%nat ["127.0.0.1:4150"]
                  (Client_AddConcurrentHandlers 0%nat () 4
                     (Client_SetLogger 0%nat stderrLogger LogLevelInfo 1%nat))).1,
       mkState (with_client (Some 0%nat) c')
         (Client_ConnectToNSQDs 0%nat ["127.0.0.1:4150"]
            (Client_AddConcurrentHandlers 0%nat () 4
               (Client_SetLogger 0%nat stderrLogger LogLevelInfo 1%nat))).2
         [CallNewConsumer "orders" "workers"; CallSetLogger LogLevelInfo;
          CallAddConcurrentHandlers 4; CallConnectToNSQDs ["127.0.0.1:4150"]]).
Proof.
  split; [exact SetMap_broker_options |]. split; [reflexivity |].
  exact (Start_one_broker "orders" "workers" "127.0.0.1:4150" 4 _ () 0%nat 0%nat 1%nat
           SetMap_broker_options eq_refl).
Defined.
